(** * Resume-request backend: the approval / expiry workflow of [server.js]

    The four Express handlers of [server.js] ([/request-resume],
    [/request-status/:email], [/admin-approve/:requestId],
    [/download-resume/:requestId]) and the [setTimeout] callback scheduled by
    the approval handler, embedded as functions over an explicit world: the
    [resume_requests] table, the pending timers, the mails handed to the
    transporter and the console.

    Conventions of the embedding:
    - time is a number of milliseconds ([Z]); [new Date()] and SQL [NOW()]
      both read the clock of the current call ([now]);
    - the three body fields of a submission are text or absent
      ([option string]), as the table's columns are text;
    - a request identifier is an integer ([Z]);
    - [email = ?] compares strings exactly. *)

From Stdlib Require Import ZArith List String Bool Lia.
Import ListNotations.

Local Open Scope string_scope.
Local Open Scope Z_scope.
Local Open Scope list_scope.

(* ------------------------------------------------------------------ *)
(** ** Data: the [resume_requests] table *)

(** The values the code writes to, and compares with, the [status] column. *)
Inductive Status : Type := pending | approved | expired.

Definition Status_eqb (a b : Status) : bool :=
  match a, b with
  | pending, pending | approved, approved | expired, expired => true
  | _, _ => false
  end.

Module Row.
(** One row of [resume_requests]; [approved_at] is the nullable column. *)
Record t : Type := make {
  id : Z;
  name : string;
  email : string;
  reason : string;
  status : Status;
  created_at : Z;
  approved_at : option Z
}.

(** [SET status='approved', approved_at=?] *)
Definition approve (at_ : Z) (r : t) : t :=
  make (id r) (name r) (email r) (reason r) approved (created_at r) (Some at_).

(** [SET status='expired'] *)
Definition expire (r : t) : t :=
  make (id r) (name r) (email r) (reason r) expired (created_at r) (approved_at r).

(** [SET status='expired', approved_at=NULL] *)
Definition expire_clear (r : t) : t :=
  make (id r) (name r) (email r) (reason r) expired (created_at r) None.
End Row.

(** [const LINK_EXPIRY_MS = 3 * 60 * 1000] *)
Definition LINK_EXPIRY_MS : Z := 3 * 60 * 1000.

(* ------------------------------------------------------------------ *)
(** ** The world the handlers act on *)

(** A callback registered with [setTimeout]: when it is due and for which
    request. *)
Record Timer : Type := mkTimer { fire_at : Z; target : Z }.

(** What is handed to [transporter.sendMail]; the links embed the request
    identifier. *)
Inductive Mail : Type :=
| AdminNotice (to : string) (name email reason : string) (approveLink : Z)
| UserApproved (to : string) (downloadLink : Z) (validMinutes : Z).

Inductive Exn : Type := DbFailure | MailFailure.

Inductive LogLine : Type :=
| Warn (text : string)
| Info (text : string) (requestId : Z)
| Error (label : string) (e : Exn).

Record World : Type := mkWorld {
  table : list Row.t;
  auto_increment : Z;
  timers : list Timer;
  outbox : list Mail;
  console : list LogLine
}.

Definition with_table (f : list Row.t -> list Row.t) (w : World) : World :=
  mkWorld (f (table w)) (auto_increment w) (timers w) (outbox w) (console w).

Definition log (l : LogLine) (w : World) : World :=
  mkWorld (table w) (auto_increment w) (timers w) (outbox w) (console w ++ [l]).

(** What one call sees of its surroundings: the clock, whether the storage
    and the mail transport work during the call, and [process.env.ADMIN_EMAIL]. *)
Record Env : Type := mkEnv {
  now : Z;
  db_up : bool;
  mail_up : bool;
  ADMIN_EMAIL : option string
}.

(* ------------------------------------------------------------------ *)
(** ** Responses *)

Inductive Payload : Type :=
| Message (message : string)
| Submitted (message : string) (id : Z)
| StatusNone
| StatusOf (status : Status) (id : Z) (approved_at : option Z)
| StatusError (message : string)
| Text (body : string)
| ApprovedPage (validMinutes : Z)
| File (path filename : string).

Record Response : Type := mkResponse { code : Z; payload : Payload }.

(* ------------------------------------------------------------------ *)
(** ** A handler monad: state, early response, exceptions *)

Inductive Outcome (A : Type) : Type :=
| Next (a : A)
| Sent (r : Response)
| Thrown (e : Exn).
Arguments Next {A} a.
Arguments Sent {A} r.
Arguments Thrown {A} e.

Definition Handler (A : Type) : Type := Env -> World -> Outcome A * World.

Definition ret {A} (a : A) : Handler A := fun _ w => (Next a, w).

Definition bind {A B} (m : Handler A) (k : A -> Handler B) : Handler B :=
  fun env w =>
    match m env w with
    | (Next a, w') => k a env w'
    | (Sent r, w') => (Sent r, w')
    | (Thrown e, w') => (Thrown e, w')
    end.

Declare Scope handler_scope.
Delimit Scope handler_scope with handler.
Notation "x <- m ;; k" := (bind m (fun x => k))
  (at level 61, m at next level, right associativity) : handler_scope.
Notation "m ;; k" := (bind m (fun _ => k))
  (at level 61, right associativity) : handler_scope.
Local Open Scope handler_scope.

(** [return res.status(c).json(..)] / [res.send(..)]: the call is answered
    and the rest of the body is skipped. *)
Definition respond {A} (r : Response) : Handler A := fun _ w => (Sent r, w).

Definition ask {A} (f : Env -> A) : Handler A := fun env w => (Next (f env), w).

Definition console_log (l : LogLine) : Handler unit :=
  fun _ w => (Next tt, log l w).

(** [try { body } catch (err) { console.error(label, err); res.status(500)... }] *)
Definition try_catch (label : string) (fallback : Response)
    (body : Handler Response) (env : Env) (w : World) : Response * World :=
  match body env w with
  | (Next r, w') => (r, w')
  | (Sent r, w') => (r, w')
  | (Thrown e, w') => (fallback, log (Error label e) w')
  end.

(* ------------------------------------------------------------------ *)
(** ** JavaScript truthiness of the values at hand *)

(** [!!v] for a value that is a string or [undefined]. *)
Definition truthy (v : option string) : bool :=
  match v with
  | None => false
  | Some s => negb (String.eqb s "")
  end.

Definition text_of (v : option string) : string :=
  match v with Some s => s | None => "" end.

(* ------------------------------------------------------------------ *)
(** ** The persistence and notification calls *)

(** Every [db.query] rejects while the storage is down. *)
Definition db_query {A} (q : World -> A * World) : Handler A :=
  fun env w => if db_up env then let (a, w') := q w in (Next a, w')
               else (Thrown DbFailure, w).

(** Modelled from the spec: the table definition is not part of the source;
    the identifier is "a unique, monotonically assigned identifier", so the
    insert takes the table's counter as the new row's [id] and advances it.

    The world after [INSERT INTO resume_requests (name, email, reason, status,
    created_at, approved_at) VALUES (?, ?, ?, 'pending', NOW(), NULL)]. *)
Definition inserted (name email reason : string) (env : Env) (w : World) : World :=
  mkWorld
    (table w ++ [Row.make (auto_increment w) name email reason pending (now env) None])
    (auto_increment w + 1) (timers w) (outbox w) (console w).

(** The insert query; its result carries [insertId]. *)
Definition insert_request (name email reason : string) : Handler Z :=
  fun env =>
    db_query (fun w => (auto_increment w, inserted name email reason env w)) env.

(** [WHERE id = ?] *)
Definition has_id (requestId : Z) (r : Row.t) : bool := Row.id r =? requestId.

(** [SELECT * FROM resume_requests WHERE id = ?] *)
Definition select_by_id (requestId : Z) : Handler (list Row.t) :=
  db_query (fun w => (filter (has_id requestId) (table w), w)).

(** The row a descending sort on [id] puts first. *)
Fixpoint highest_id (rows : list Row.t) : option Row.t :=
  match rows with
  | [] => None
  | r :: rest =>
      match highest_id rest with
      | None => Some r
      | Some m => if Row.id m <? Row.id r then Some r else Some m
      end
  end.

Definition limit_1 (top : option Row.t) : list Row.t :=
  match top with Some r => [r] | None => [] end.

(** [SELECT * FROM resume_requests WHERE email=? ORDER BY id DESC LIMIT 1] *)
Definition select_latest_by_email (email : string) : Handler (list Row.t) :=
  db_query (fun w =>
    (limit_1 (highest_id (filter (fun r => String.eqb (Row.email r) email) (table w))), w)).

(** [SET ... WHERE id=?] on the rows of the table. *)
Definition update_table (requestId : Z) (set : Row.t -> Row.t) (rows : list Row.t)
    : list Row.t :=
  map (fun r => if has_id requestId r then set r else r) rows.

(** [UPDATE resume_requests SET ... WHERE id=?] *)
Definition update_where_id (requestId : Z) (set : Row.t -> Row.t) : Handler unit :=
  db_query (fun w => (tt, with_table (update_table requestId set) w)).

(** [await transporter.sendMail(..)]: rejects while the transport is down. *)
Definition sendMail (m : Mail) : Handler unit :=
  fun env w =>
    if mail_up env
    then (Next tt, mkWorld (table w) (auto_increment w) (timers w)
                           (outbox w ++ [m]) (console w))
    else (Thrown MailFailure, w).

(** [setTimeout(callback, delay)] with the callback closed over [requestId]. *)
Definition setTimeout (requestId : Z) (delay : Z) : Handler unit :=
  fun env w =>
    (Next tt, mkWorld (table w) (auto_increment w)
                      (timers w ++ [mkTimer (now env + delay) requestId])
                      (outbox w) (console w)).

(* ------------------------------------------------------------------ *)
(** ** The handlers *)

Definition json (c : Z) (p : Payload) : Response := mkResponse c p.
Definition send (c : Z) (body : string) : Response := mkResponse c (Text body).

(** The two 403 answers of the download handler and the other answers the
    claims speak of, named after the error taxonomy of the specification. *)
Definition ValidationError : Response := json 400 (Message "All fields are required").
Definition ServerErrorJson : Response := json 500 (Message "Server error").
Definition ServerError : Response := send 500 "Server error".
Definition NotFoundError : Response := send 404 "Request not found".
Definition ForbiddenError : Response := send 403 "❌ Request not approved.".
Definition TimestampMissing : Response := send 403 "Approval timestamp missing.".
Definition ExpiredError : Response :=
  send 403 "⏳ Your approval has expired. Please request again.".
Definition SubmittedOk (insertId : Z) : Response :=
  json 201 (Submitted "Request submitted" insertId).
Definition ApprovedOk : Response :=
  mkResponse 200 (ApprovedPage (LINK_EXPIRY_MS / 60000)).
Definition ResumeFile : Response :=
  mkResponse 200 (File "Chakit_Resume.pdf" "Chakit_Resume.pdf").

(** [app.post("/request-resume", ...)] *)
Definition request_resume (name email reason : option string)
    : Env -> World -> Response * World :=
  try_catch "request-resume error:" ServerErrorJson
    (if negb (truthy name) || negb (truthy email) || negb (truthy reason)
     then respond ValidationError
     else
       insertId <- insert_request (text_of name) (text_of email) (text_of reason) ;;
       admin <- ask ADMIN_EMAIL ;;
       (if negb (truthy admin)
        then console_log (Warn "ADMIN_EMAIL not set — admin notificaton skipped.")
        else sendMail (AdminNotice (text_of admin) (text_of name) (text_of email)
                                   (text_of reason) insertId)) ;;
       ret (SubmittedOk insertId)).

(** [app.get("/request-status/:email", ...)] *)
Definition request_status (email : string) : Env -> World -> Response * World :=
  try_catch "request-status error:" (json 500 (StatusError "Server error"))
    (rows <- select_latest_by_email email ;;
     match rows with
     | [] => respond (json 200 StatusNone)
     | r :: _ =>
         respond (json 200 (StatusOf (Row.status r) (Row.id r) (Row.approved_at r)))
     end).

(** The callback handed to [setTimeout] by the approval handler, with its
    own [try]/[catch]. *)
Definition auto_expire (requestId : Z) (env : Env) (w : World) : World :=
  match
    (r2 <- select_by_id requestId ;;
     match r2 with
     | r :: _ =>
         if Status_eqb (Row.status r) approved
         then update_where_id requestId Row.expire ;;
              console_log (Info "auto-expired (set by setTimeout)." requestId)
         else ret tt
     | [] => ret tt
     end) env w
  with
  | (Thrown e, w') => log (Error "auto-expire error:" e) w'
  | (_, w') => w'
  end.

(** [app.get("/admin-approve/:requestId", ...)] *)
Definition admin_approve (requestId : Z) : Env -> World -> Response * World :=
  try_catch "admin-approve error:" ServerError
    (rows <- select_by_id requestId ;;
     match rows with
     | [] => respond NotFoundError
     | r0 :: _ =>
         approvalTime <- ask now ;;
         update_where_id requestId (Row.approve approvalTime) ;;
         (if truthy (Some (Row.email r0))
          then sendMail (UserApproved (Row.email r0) requestId (LINK_EXPIRY_MS / 60000))
          else console_log (Warn "No email for request; user notification skipped.")) ;;
         setTimeout requestId LINK_EXPIRY_MS ;;
         ret ApprovedOk
     end).

(** [app.get("/download-resume/:requestId", ...)] *)
Definition download_resume (requestId : Z) : Env -> World -> Response * World :=
  try_catch "download-resume error:" ServerError
    (rows <- select_by_id requestId ;;
     match rows with
     | [] => respond NotFoundError
     | r :: _ =>
         if negb (Status_eqb (Row.status r) approved) then respond ForbiddenError
         else
           match Row.approved_at r with
           | None => respond TimestampMissing
           | Some approvedAt =>
               now_ <- ask now ;;
               let diff := now_ - approvedAt in
               if LINK_EXPIRY_MS <? diff
               then update_where_id requestId Row.expire_clear ;;
                    respond ExpiredError
               else ret ResumeFile
           end
     end).

(* ------------------------------------------------------------------ *)
(** ** The server as a transition system *)

Fixpoint drop_nth {A} (n : nat) (l : list A) : list A :=
  match n, l with
  | _, [] => []
  | O, _ :: rest => rest
  | S k, x :: rest => x :: drop_nth k rest
  end.

(** The event loop runs the [n]-th pending timer once it is due. *)
Definition run_timer (n : nat) (env : Env) (w : World) : World :=
  match nth_error (timers w) n with
  | Some t =>
      if fire_at t <=? now env
      then auto_expire (target t) env
             (mkWorld (table w) (auto_increment w) (drop_nth n (timers w))
                      (outbox w) (console w))
      else w
  | None => w
  end.

Inductive Op : Type :=
| Submit (name email reason : option string)
| GetStatus (email : string)
| Approve (requestId : Z)
| Download (requestId : Z)
| TimerFires (n : nat).

Definition step (env : Env) (op : Op) (w : World) : option Response * World :=
  match op with
  | Submit name email reason =>
      let (r, w') := request_resume name email reason env w in (Some r, w')
  | GetStatus email => let (r, w') := request_status email env w in (Some r, w')
  | Approve requestId => let (r, w') := admin_approve requestId env w in (Some r, w')
  | Download requestId => let (r, w') := download_resume requestId env w in (Some r, w')
  | TimerFires n => (None, run_timer n env w)
  end.

(** A run: each operation with the surroundings it executes in. *)
Fixpoint run (ops : list (Env * Op)) (w : World) : list (option Response) * World :=
  match ops with
  | [] => ([], w)
  | (env, op) :: rest =>
      let (r, w1) := step env op w in
      let (rs, w2) := run rest w1 in
      (r :: rs, w2)
  end.

Definition empty_world : World := mkWorld [] 1 [] [] [].

(** The rows a request identifier resolves to. *)
Definition resolve (requestId : Z) (w : World) : list Row.t :=
  filter (has_id requestId) (table w).

(** The table's key discipline: identifiers are unique and all below the
    counter. *)
Definition well_keyed (w : World) : Prop :=
  NoDup (map Row.id (table w)) /\
  forall r, In r (table w) -> Row.id r < auto_increment w.

(** Whether a response carries the document. *)
Definition serves_document (r : Response) : bool :=
  match payload r with File _ _ => true | _ => false end.

(** The request a handler works on: [rows[0]] of the select by identifier. *)
Definition status_of (requestId : Z) (w : World) : option Status :=
  option_map Row.status (hd_error (resolve requestId w)).

(** A body field that is missing from the submission or is the empty text. *)
Definition absent_or_empty (v : option string) : Prop := v = None \/ v = Some "".

(** The admin notification does not reject: it is skipped or delivered. *)
Definition notification_passes (env : Env) : Prop :=
  truthy (ADMIN_EMAIL env) = false \/ mail_up env = true.

(** Every [approved] row of the table carries an approval timestamp. *)
Definition approved_stamped (w : World) : Prop :=
  forall r, In r (table w) -> Row.status r = approved -> Row.approved_at r <> None.

(** The columns written once, by the insert: no update statement names
    them. *)
Definition submitted_fields (r : Row.t) : Z * string * string * string * Z :=
  (Row.id r, Row.name r, Row.email r, Row.reason r, Row.created_at r).

(* ------------------------------------------------------------------ *)
(** ** Lemmas on the table operations *)

Ltac unfold_handler :=
  unfold try_catch, bind, select_by_id, select_latest_by_email, update_where_id,
    insert_request, db_query, respond, ret, ask, console_log, sendMail,
    setTimeout, with_table in *.

Lemma Status_eqb_eq (a b : Status) : Status_eqb a b = true <-> a = b.
Proof. destruct a, b; simpl; split; intro H; try reflexivity; discriminate H. Qed.

Lemma approve_id (t : Z) (r : Row.t) : Row.id (Row.approve t r) = Row.id r.
Proof. reflexivity. Qed.

Lemma expire_id (r : Row.t) : Row.id (Row.expire r) = Row.id r.
Proof. reflexivity. Qed.

Lemma expire_clear_id (r : Row.t) : Row.id (Row.expire_clear r) = Row.id r.
Proof. reflexivity. Qed.

Section Update.
Variable set : Row.t -> Row.t.
Hypothesis set_keeps_id : forall r, Row.id (set r) = Row.id r.

(** The rows an update touches are exactly the rows the identifier
    resolves to. *)
Lemma filter_update_same (i : Z) (rows : list Row.t) :
  filter (has_id i) (update_table i set rows) = map set (filter (has_id i) rows).
Proof.
  induction rows as [|r rows IH]; simpl; [reflexivity|].
  destruct (has_id i r) eqn:E; simpl.
  - unfold has_id in *. rewrite set_keeps_id, E. simpl. now rewrite IH.
  - rewrite E. exact IH.
Qed.

(** Rows of any other identifier are left as they are. *)
Lemma filter_update_other (i j : Z) (rows : list Row.t) :
  i <> j ->
  filter (has_id j) (update_table i set rows) = filter (has_id j) rows.
Proof.
  intro Hij. induction rows as [|r rows IH]; simpl; [reflexivity|].
  destruct (has_id i r) eqn:Ei.
  - unfold has_id in *. rewrite set_keeps_id.
    apply Z.eqb_eq in Ei. replace (Row.id r =? j) with false.
    + exact IH.
    + symmetry. apply Z.eqb_neq. lia.
  - destruct (has_id j r); [now rewrite IH | exact IH].
Qed.

Lemma update_keeps_ids (i : Z) (rows : list Row.t) :
  map Row.id (update_table i set rows) = map Row.id rows.
Proof.
  induction rows as [|r rows IH]; simpl; [reflexivity|].
  rewrite IH. now destruct (has_id i r); [rewrite set_keeps_id|].
Qed.
End Update.

(* ------------------------------------------------------------------ *)
(** ** Download *)

(** What the download handler does, by cases on [rows[0]], while the
    storage works. *)
Lemma download_resume_cases (requestId : Z) (env : Env) (w : World) :
  db_up env = true ->
  download_resume requestId env w =
    match resolve requestId w with
    | [] => (NotFoundError, w)
    | r :: _ =>
        match Row.status r, Row.approved_at r with
        | approved, None => (TimestampMissing, w)
        | approved, Some approvedAt =>
            if LINK_EXPIRY_MS <? now env - approvedAt
            then (ExpiredError, with_table (update_table requestId Row.expire_clear) w)
            else (ResumeFile, w)
        | _, _ => (ForbiddenError, w)
        end
    end.
Proof.
  intro Hdb. unfold download_resume, resolve. unfold_handler. rewrite Hdb.
  destruct (filter (has_id requestId) (table w)) as [|r rest]; [reflexivity|].
  destruct (Row.status r); simpl; try reflexivity.
  destruct (Row.approved_at r) as [approvedAt|]; [|reflexivity].
  destruct (LINK_EXPIRY_MS <? now env - approvedAt); [|reflexivity].
  now rewrite Hdb.
Qed.

(** While the storage is down the handler answers 500 and only logs. *)
Lemma download_resume_db_down (requestId : Z) (env : Env) (w : World) :
  db_up env = false ->
  download_resume requestId env w =
    (ServerError, log (Error "download-resume error:" DbFailure) w).
Proof.
  intro Hdb. unfold download_resume. unfold_handler. now rewrite Hdb.
Qed.

(** C4. A download of an approved request with a stored approval timestamp,
    made when more than [LINK_EXPIRY_MS] has elapsed since that timestamp,
    is answered with [ExpiredError] (which differs from the generic
    [ForbiddenError]) and serves no document; afterwards every row the
    identifier resolves to has status [expired] and a null [approved_at],
    and the rows of other identifiers are untouched. *)
Theorem download_after_window_expires
    (env : Env) (w : World) (requestId : Z) (r : Row.t) (rest : list Row.t)
    (approvedAt : Z) :
  db_up env = true ->
  resolve requestId w = r :: rest ->
  Row.status r = approved ->
  Row.approved_at r = Some approvedAt ->
  LINK_EXPIRY_MS < now env - approvedAt ->
  let resp := fst (download_resume requestId env w) in
  let w' := snd (download_resume requestId env w) in
  resp = ExpiredError /\
  ExpiredError <> ForbiddenError /\
  serves_document resp = false /\
  status_of requestId w' = Some expired /\
  (forall r', In r' (resolve requestId w') ->
     Row.status r' = expired /\ Row.approved_at r' = None) /\
  resolve requestId w' = map Row.expire_clear (resolve requestId w) /\
  (forall j, j <> requestId -> resolve j w' = resolve j w).
Proof.
  intros Hdb Hrows Hst Hat Hlate. cbv zeta.
  rewrite (download_resume_cases _ _ _ Hdb), Hrows, Hst, Hat.
  apply Z.ltb_lt in Hlate. rewrite Hlate. cbn [fst snd].
  assert (Hres : resolve requestId
                   (with_table (update_table requestId Row.expire_clear) w)
                 = map Row.expire_clear (resolve requestId w)).
  { unfold resolve, with_table. cbn [table].
    apply filter_update_same. exact expire_clear_id. }
  repeat split.
  - discriminate.
  - unfold status_of. rewrite Hres, Hrows. reflexivity.
  - rewrite Hres in H. apply in_map_iff in H. destruct H as [x [<- _]]. reflexivity.
  - rewrite Hres in H. apply in_map_iff in H. destruct H as [x [<- _]]. reflexivity.
  - rewrite <- Hrows. exact Hres.
  - intros j Hj. unfold resolve, with_table. cbn [table].
    apply filter_update_other; [exact expire_clear_id | congruence].
Qed.

(** The scenario of the specification: approved at [T = 1000], downloaded
    four minutes later. *)
Lemma download_after_window_expires_witness :
  let env := mkEnv 241000 true true None in
  let w := mkWorld [Row.make 1 "Alice" "a@x.com" "review" approved 0 (Some 1000)]
                   2 [] [] [] in
  fst (download_resume 1 env w) = ExpiredError /\
  status_of 1 (snd (download_resume 1 env w)) = Some expired.
Proof.
  intros env w.
  pose proof (download_after_window_expires env w 1
                (Row.make 1 "Alice" "a@x.com" "review" approved 0 (Some 1000))
                [] 1000 eq_refl eq_refl eq_refl eq_refl eq_refl) as H.
  cbv zeta in H. destruct H as [H1 [_ [_ [H4 _]]]]. split; assumption.
Defined.

(** C5. A download of an approved request with a stored approval timestamp,
    made while at most [LINK_EXPIRY_MS] has elapsed, answers with the
    document and leaves the whole world, hence the stored record, as it
    was. *)
Theorem download_within_window_serves
    (env : Env) (w : World) (requestId : Z) (r : Row.t) (rest : list Row.t)
    (approvedAt : Z) :
  db_up env = true ->
  resolve requestId w = r :: rest ->
  Row.status r = approved ->
  Row.approved_at r = Some approvedAt ->
  now env - approvedAt <= LINK_EXPIRY_MS ->
  download_resume requestId env w = (ResumeFile, w) /\
  serves_document ResumeFile = true.
Proof.
  intros Hdb Hrows Hst Hat Hin.
  rewrite (download_resume_cases _ _ _ Hdb), Hrows, Hst, Hat.
  replace (LINK_EXPIRY_MS <? now env - approvedAt) with false.
  - split; reflexivity.
  - symmetry. apply Z.ltb_ge. exact Hin.
Qed.

Lemma download_within_window_serves_witness :
  let env := mkEnv 61000 true true None in
  let w := mkWorld [Row.make 1 "Alice" "a@x.com" "review" approved 0 (Some 1000)]
                   2 [] [] [] in
  download_resume 1 env w = (ResumeFile, w).
Proof.
  intros env w.
  refine (proj1 (download_within_window_serves env w 1
                   (Row.make 1 "Alice" "a@x.com" "review" approved 0 (Some 1000))
                   [] 1000 eq_refl eq_refl eq_refl eq_refl _)).
  vm_compute. discriminate.
Defined.

(** The same link keeps working: any number of downloads, each made within
    the window, all serve the document and change nothing. *)
Lemma download_repeatable
    (w : World) (requestId : Z) (r : Row.t) (rest : list Row.t) (approvedAt : Z)
    (envs : list Env) :
  resolve requestId w = r :: rest ->
  Row.status r = approved ->
  Row.approved_at r = Some approvedAt ->
  Forall (fun env => db_up env = true /\ now env - approvedAt <= LINK_EXPIRY_MS) envs ->
  run (map (fun env => (env, Download requestId)) envs) w =
    (map (fun _ => Some ResumeFile) envs, w).
Proof.
  intros Hrows Hst Hat Hall. induction Hall as [|env envs [Hdb Hin] _ IH]; [reflexivity|].
  cbn [map run step].
  rewrite (download_resume_cases _ _ _ Hdb), Hrows, Hst, Hat.
  replace (LINK_EXPIRY_MS <? now env - approvedAt) with false
    by (symmetry; apply Z.ltb_ge; exact Hin).
  now rewrite IH.
Qed.

(** C6, as the code has it. A download of a request whose status is not
    [approved] -- [pending] or [expired] alike -- serves no document and
    leaves the table as it was; while the storage works it is answered with
    the same generic [ForbiddenError] in both cases and changes nothing.
    [ExpiredError] is answered only when the storage works and the request
    found is [approved], stamped, and more than [LINK_EXPIRY_MS] past its
    stamp. *)
Theorem download_not_approved_forbidden
    (env : Env) (w : World) (requestId : Z) :
  (forall r rest,
     resolve requestId w = r :: rest ->
     Row.status r <> approved ->
     serves_document (fst (download_resume requestId env w)) = false /\
     table (snd (download_resume requestId env w)) = table w /\
     (db_up env = true -> download_resume requestId env w = (ForbiddenError, w))) /\
  (fst (download_resume requestId env w) = ExpiredError ->
     db_up env = true /\
     exists r rest approvedAt,
       resolve requestId w = r :: rest /\
       Row.status r = approved /\
       Row.approved_at r = Some approvedAt /\
       LINK_EXPIRY_MS < now env - approvedAt).
Proof.
  split.
  - intros r rest Hrows Hst.
    destruct (db_up env) eqn:Hdb.
    + rewrite (download_resume_cases _ _ _ Hdb), Hrows.
      destruct (Row.status r); try congruence; repeat split; reflexivity.
    + rewrite (download_resume_db_down _ _ _ Hdb).
      repeat split. discriminate.
  - destruct (db_up env) eqn:Hdb.
    + rewrite (download_resume_cases _ _ _ Hdb).
      destruct (resolve requestId w) as [|r rest]; [discriminate|].
      destruct (Row.status r) eqn:Hst; try discriminate.
      destruct (Row.approved_at r) as [approvedAt|] eqn:Hat; [|discriminate].
      destruct (Z.ltb_spec LINK_EXPIRY_MS (now env - approvedAt)) as [Hlate|Hin];
        [|discriminate].
      intros _. split; [reflexivity|]. now exists r, rest, approvedAt.
    + rewrite (download_resume_db_down _ _ _ Hdb). discriminate.
Qed.

(** A pending request is refused with the generic answer; the expiry
    answer given to a late download traces back to an approved row. *)
Lemma download_not_approved_forbidden_witness :
  let env := mkEnv 500000 true true None in
  let w := mkWorld [Row.make 1 "Alice" "a@x.com" "review" pending 0 None;
                    Row.make 2 "Bob" "b@x.com" "hiring" approved 5 (Some 1000)]
                   3 [] [] [] in
  download_resume 1 env w = (ForbiddenError, w) /\
  exists r rest, resolve 2 w = r :: rest /\ Row.status r = approved.
Proof.
  intros env w.
  destruct (download_not_approved_forbidden env w 1) as [Hrefused _].
  destruct (download_not_approved_forbidden env w 2) as [_ Honly].
  split.
  - refine (proj2 (proj2 (Hrefused
              (Row.make 1 "Alice" "a@x.com" "review" pending 0 None) []
              eq_refl _)) eq_refl).
    discriminate.
  - destruct (Honly eq_refl) as [_ [r [rest [t [Hrows [Hst _]]]]]].
    now exists r, rest.
Defined.

(** C6, as stated, fails on an [expired] request: the answer is the generic
    [ForbiddenError], not [ExpiredError]. *)
Lemma download_expired_not_ExpiredError :
  let env := mkEnv 500000 true true None in
  let w := mkWorld [Row.make 1 "Alice" "a@x.com" "review" expired 0 None]
                   2 [] [] [] in
  status_of 1 w = Some expired /\
  fst (download_resume 1 env w) = ForbiddenError /\
  fst (download_resume 1 env w) <> ExpiredError.
Proof.
  cbv zeta. split; [reflexivity|]. split; [reflexivity|].
  vm_compute. discriminate.
Qed.

(** C10. A download of a request stored as [approved] with a null
    [approved_at] is answered 403 "Approval timestamp missing.", serves no
    document and leaves the world as it was. *)
Theorem download_missing_timestamp_forbidden
    (env : Env) (w : World) (requestId : Z) (r : Row.t) (rest : list Row.t) :
  db_up env = true ->
  resolve requestId w = r :: rest ->
  Row.status r = approved ->
  Row.approved_at r = None ->
  download_resume requestId env w = (TimestampMissing, w) /\
  code TimestampMissing = 403 /\
  serves_document TimestampMissing = false.
Proof.
  intros Hdb Hrows Hst Hat.
  rewrite (download_resume_cases _ _ _ Hdb), Hrows, Hst, Hat.
  repeat split.
Qed.

Lemma download_missing_timestamp_forbidden_witness :
  let env := mkEnv 5000 true true None in
  let w := mkWorld [Row.make 1 "Alice" "a@x.com" "review" approved 0 None]
                   2 [] [] [] in
  download_resume 1 env w = (TimestampMissing, w).
Proof.
  intros env w.
  exact (proj1 (download_missing_timestamp_forbidden env w 1
            (Row.make 1 "Alice" "a@x.com" "review" approved 0 None) []
            eq_refl eq_refl eq_refl eq_refl)).
Defined.

(* ------------------------------------------------------------------ *)
(** ** Approve and the delayed check *)

(** What the approval handler does while the storage works, by cases on the
    select and on the notification. *)
Lemma admin_approve_cases (requestId : Z) (env : Env) (w : World) :
  db_up env = true ->
  admin_approve requestId env w =
    match resolve requestId w with
    | [] => (NotFoundError, w)
    | r0 :: _ =>
        let stamped := update_table requestId (Row.approve (now env)) (table w) in
        let due := mkTimer (now env + LINK_EXPIRY_MS) requestId in
        if truthy (Some (Row.email r0)) then
          if mail_up env then
            (ApprovedOk,
             mkWorld stamped (auto_increment w) (timers w ++ [due])
               (outbox w ++ [UserApproved (Row.email r0) requestId
                                          (LINK_EXPIRY_MS / 60000)])
               (console w))
          else
            (ServerError,
             log (Error "admin-approve error:" MailFailure)
               (mkWorld stamped (auto_increment w) (timers w) (outbox w) (console w)))
        else
          (ApprovedOk,
           mkWorld stamped (auto_increment w) (timers w ++ [due]) (outbox w)
             (console w ++ [Warn "No email for request; user notification skipped."]))
    end.
Proof.
  intro Hdb. unfold admin_approve, resolve. unfold_handler. rewrite Hdb.
  destruct (filter (has_id requestId) (table w)) as [|r0 rest]; [reflexivity|].
  rewrite Hdb. cbn [table auto_increment timers outbox console].
  destruct (truthy (Some (Row.email r0))); [|reflexivity].
  destruct (mail_up env); reflexivity.
Qed.

Lemma admin_approve_db_down (requestId : Z) (env : Env) (w : World) :
  db_up env = false ->
  admin_approve requestId env w =
    (ServerError, log (Error "admin-approve error:" DbFailure) w).
Proof.
  intro Hdb. unfold admin_approve. unfold_handler. now rewrite Hdb.
Qed.

(** Whatever the notification does, the table after an approval that found
    the request is the stamped one. *)
Lemma admin_approve_table (requestId : Z) (env : Env) (w : World) :
  db_up env = true ->
  resolve requestId w <> [] ->
  table (snd (admin_approve requestId env w)) =
    update_table requestId (Row.approve (now env)) (table w).
Proof.
  intros Hdb Hex. rewrite (admin_approve_cases _ _ _ Hdb).
  destruct (resolve requestId w) as [|r0 rest]; [congruence|]. cbv zeta.
  destruct (truthy (Some (Row.email r0))); [destruct (mail_up env)|]; reflexivity.
Qed.

(** The delayed check, by cases. *)
Lemma auto_expire_cases (requestId : Z) (env : Env) (w : World) :
  auto_expire requestId env w =
    if db_up env then
      match resolve requestId w with
      | r :: _ =>
          if Status_eqb (Row.status r) approved
          then log (Info "auto-expired (set by setTimeout)." requestId)
                 (with_table (update_table requestId Row.expire) w)
          else w
      | [] => w
      end
    else log (Error "auto-expire error:" DbFailure) w.
Proof.
  unfold auto_expire, resolve. unfold_handler.
  destruct (db_up env) eqn:Hdb; [|reflexivity].
  destruct (filter (has_id requestId) (table w)) as [|r rest]; [reflexivity|].
  destruct (Status_eqb (Row.status r) approved); [|reflexivity].
  rewrite Hdb. reflexivity.
Qed.

(** The delayed check never writes [approved_at]: the column reads the same
    before and after, row by row. *)
Lemma auto_expire_keeps_approved_at (requestId : Z) (env : Env) (w : World) :
  map Row.approved_at (table (auto_expire requestId env w)) =
  map Row.approved_at (table w).
Proof.
  rewrite auto_expire_cases.
  destruct (db_up env); [|reflexivity].
  destruct (resolve requestId w) as [|r rest]; [reflexivity|].
  destruct (Status_eqb (Row.status r) approved); [|reflexivity].
  unfold log, with_table, update_table. cbn [table].
  rewrite map_map. apply map_ext. intro x. now destruct (has_id requestId x).
Qed.

(** C1, at the input where the code departs from it. The delayed check
    scheduled by an approval at [T = 1000] fires when due: the row becomes
    [expired] and its [approved_at] is still [T], not null. *)
Theorem auto_expire_leaves_timestamp :
  let env := mkEnv 181000 true true None in
  let w := mkWorld [Row.make 1 "Alice" "a@x.com" "review" approved 0 (Some 1000)]
                   2 [mkTimer 181000 1] [] [] in
  table (snd (step env (TimerFires 0) w)) =
    [Row.make 1 "Alice" "a@x.com" "review" expired 0 (Some 1000)].
Proof. reflexivity. Qed.

(** C7. While the storage works: if the identifier resolves to a request,
    then whatever its status and whatever becomes of the notification,
    approval sets the status of every row it resolves to to [approved] and
    their [approved_at] to the current time, leaving other identifiers' rows
    alone; if it resolves to none, the answer is [NotFoundError] and the
    world is unchanged. *)
Theorem admin_approve_stamps_or_404 (env : Env) (w : World) (requestId : Z) :
  db_up env = true ->
  let resp := fst (admin_approve requestId env w) in
  let w' := snd (admin_approve requestId env w) in
  (resolve requestId w <> [] ->
     resolve requestId w' = map (Row.approve (now env)) (resolve requestId w) /\
     status_of requestId w' = Some approved /\
     (forall r', In r' (resolve requestId w') ->
        Row.status r' = approved /\ Row.approved_at r' = Some (now env)) /\
     (forall j, j <> requestId -> resolve j w' = resolve j w)) /\
  (resolve requestId w = [] -> resp = NotFoundError /\ w' = w).
Proof.
  intros Hdb. cbv zeta. split.
  - intro Hex.
    assert (Hres : resolve requestId (snd (admin_approve requestId env w))
                   = map (Row.approve (now env)) (resolve requestId w)).
    { unfold resolve at 1. rewrite (admin_approve_table _ _ _ Hdb Hex).
      apply filter_update_same. apply approve_id. }
    repeat split.
    + exact Hres.
    + unfold status_of. rewrite Hres.
      destruct (resolve requestId w); [congruence | reflexivity].
    + rewrite Hres in H. apply in_map_iff in H. now destruct H as [x [<- _]].
    + rewrite Hres in H. apply in_map_iff in H. now destruct H as [x [<- _]].
    + intros j Hj. unfold resolve at 1.
      rewrite (admin_approve_table _ _ _ Hdb Hex).
      apply filter_update_other; [apply approve_id | congruence].
  - intro Hnone. rewrite (admin_approve_cases _ _ _ Hdb), Hnone. split; reflexivity.
Qed.

(** Re-approval of an already approved request, and approval of an unknown
    identifier. *)
Lemma admin_approve_stamps_or_404_witness :
  let env := mkEnv 9000 true true None in
  let w := mkWorld [Row.make 1 "Alice" "a@x.com" "review" approved 0 (Some 1000)]
                   2 [] [] [] in
  status_of 1 (snd (admin_approve 1 env w)) = Some approved /\
  (forall r', In r' (resolve 1 (snd (admin_approve 1 env w))) ->
     Row.approved_at r' = Some 9000) /\
  admin_approve 7 env w = (NotFoundError, w).
Proof.
  intros env w.
  destruct (admin_approve_stamps_or_404 env w 1 eq_refl) as [Hfound _].
  destruct (admin_approve_stamps_or_404 env w 7 eq_refl) as [_ Hnone].
  destruct Hfound as [_ [Hst [Hall _]]]; [discriminate|].
  destruct (Hnone eq_refl) as [Hresp Hw].
  split; [exact Hst|]. split.
  - intros r' Hin. exact (proj2 (Hall r' Hin)).
  - rewrite <- Hresp at 1. rewrite <- Hw at 2. apply surjective_pairing.
Defined.

(* ------------------------------------------------------------------ *)
(** ** Submit *)

Lemma truthy_false_iff (v : option string) :
  truthy v = false <-> absent_or_empty v.
Proof.
  unfold absent_or_empty. destruct v as [s|]; simpl.
  - destruct (String.eqb_spec s ""); simpl; split; intro H.
    + right. now subst.
    + reflexivity.
    + discriminate.
    + destruct H as [H|H]; [discriminate | congruence].
  - split; [now left | reflexivity].
Qed.

Lemma truthy_text (v : option string) : truthy v = true -> v = Some (text_of v).
Proof. destruct v; simpl; [reflexivity | discriminate]. Qed.

(** What the submission handler does, by cases. *)
Lemma request_resume_cases (name email reason : option string) (env : Env) (w : World) :
  request_resume name email reason env w =
    if negb (truthy name) || negb (truthy email) || negb (truthy reason)
    then (ValidationError, w)
    else if db_up env then
      let w1 := inserted (text_of name) (text_of email) (text_of reason) env w in
      if truthy (ADMIN_EMAIL env) then
        if mail_up env then
          (SubmittedOk (auto_increment w),
           mkWorld (table w1) (auto_increment w1) (timers w1)
             (outbox w1 ++ [AdminNotice (text_of (ADMIN_EMAIL env)) (text_of name)
                              (text_of email) (text_of reason) (auto_increment w)])
             (console w1))
        else
          (ServerErrorJson, log (Error "request-resume error:" MailFailure) w1)
      else
        (SubmittedOk (auto_increment w),
         log (Warn "ADMIN_EMAIL not set — admin notificaton skipped.") w1)
    else (ServerErrorJson, log (Error "request-resume error:" DbFailure) w).
Proof.
  unfold request_resume. unfold_handler.
  destruct (negb (truthy name) || negb (truthy email) || negb (truthy reason));
    [reflexivity|].
  destruct (db_up env); [|reflexivity].
  destruct (truthy (ADMIN_EMAIL env)); simpl; [|reflexivity].
  destruct (mail_up env); reflexivity.
Qed.

(** C2, as the code has it. With the storage up and the transport
    rejecting the mail, every Submit and every Approve that attempts its
    notification logs the failure and surfaces it as the generic 500
    answer. Submit (valid fields, [ADMIN_EMAIL] set) does not return the
    identifier, and the row it inserted stays. Approve (request found, with
    a non-empty email) does not return its confirmation and schedules no
    delayed check, and the status and timestamp it wrote stay. *)
Theorem notification_failure_surfaces (env : Env) (w : World) :
  db_up env = true ->
  mail_up env = false ->
  (forall name email reason,
     truthy name = true -> truthy email = true -> truthy reason = true ->
     truthy (ADMIN_EMAIL env) = true ->
     request_resume name email reason env w =
       (ServerErrorJson,
        log (Error "request-resume error:" MailFailure)
          (inserted (text_of name) (text_of email) (text_of reason) env w))) /\
  (forall requestId r0 rest,
     resolve requestId w = r0 :: rest ->
     truthy (Some (Row.email r0)) = true ->
     admin_approve requestId env w =
       (ServerError,
        log (Error "admin-approve error:" MailFailure)
          (with_table (update_table requestId (Row.approve (now env))) w))).
Proof.
  intros Hdb Hmail. split.
  - intros name email reason Hn He Hr Hadmin.
    rewrite request_resume_cases, Hn, He, Hr, Hdb, Hadmin, Hmail. reflexivity.
  - intros requestId r0 rest Hrows Hto.
    rewrite (admin_approve_cases _ _ _ Hdb), Hrows. cbv zeta.
    rewrite Hto, Hmail. reflexivity.
Qed.

(** A submission into the empty table, and an approval while
    [ADMIN_EMAIL] is not set: each is answered 500 when the mail fails. *)
Lemma notification_failure_surfaces_witness :
  fst (request_resume (Some "Bob") (Some "b@x.com") (Some "hiring")
         (mkEnv 1000 true false (Some "admin@x.com")) empty_world)
    = ServerErrorJson /\
  fst (admin_approve 1 (mkEnv 1000 true false None)
         (mkWorld [Row.make 1 "Alice" "a@x.com" "review" pending 0 None]
                  2 [] [] []))
    = ServerError.
Proof.
  destruct (notification_failure_surfaces
              (mkEnv 1000 true false (Some "admin@x.com")) empty_world
              eq_refl eq_refl) as [Hsubmit _].
  destruct (notification_failure_surfaces
              (mkEnv 1000 true false None)
              (mkWorld [Row.make 1 "Alice" "a@x.com" "review" pending 0 None]
                       2 [] [] [])
              eq_refl eq_refl) as [_ Happrove].
  rewrite (Hsubmit (Some "Bob") (Some "b@x.com") (Some "hiring")
             eq_refl eq_refl eq_refl eq_refl).
  rewrite (Happrove 1 (Row.make 1 "Alice" "a@x.com" "review" pending 0 None) []
             eq_refl eq_refl).
  split; reflexivity.
Defined.

(** C2, as stated, fails: with the transport down, Submit answers 500
    instead of the new identifier, and Approve answers 500 instead of its
    confirmation. *)
Lemma notification_failure_not_swallowed :
  let env := mkEnv 1000 true false (Some "admin@x.com") in
  let w := mkWorld [Row.make 1 "Alice" "a@x.com" "review" pending 0 None]
                   2 [] [] [] in
  (forall insertId,
     fst (request_resume (Some "Bob") (Some "b@x.com") (Some "hiring") env w)
       <> SubmittedOk insertId) /\
  fst (admin_approve 1 env w) <> ApprovedOk.
Proof.
  cbv zeta. split.
  - intros insertId. vm_compute. discriminate.
  - vm_compute. discriminate.
Qed.

(* ------------------------------------------------------------------ *)
(** ** What a step can do to the table and its counter *)

Lemma request_status_cases (email : string) (env : Env) (w : World) :
  request_status email env w =
    if db_up env then
      match highest_id (filter (fun r => String.eqb (Row.email r) email) (table w)) with
      | None => (json 200 StatusNone, w)
      | Some r => (json 200 (StatusOf (Row.status r) (Row.id r) (Row.approved_at r)), w)
      end
    else (json 500 (StatusError "Server error"),
          log (Error "request-status error:" DbFailure) w).
Proof.
  unfold request_status. unfold_handler.
  destruct (db_up env); [|reflexivity].
  now destruct (highest_id _).
Qed.

(** Every step leaves the table alone, or appends the row of the insert and
    advances the counter, or rewrites the rows of one identifier in place
    keeping their [id]: an approval stamps them, and the two expiry paths,
    taken only when [rows[0]] is [approved], make them [expired]. *)
Lemma step_effect (env : Env) (op : Op) (w : World) :
  let w' := snd (step env op w) in
  (table w' = table w /\ auto_increment w' = auto_increment w) \/
  (exists i set, (forall r, Row.id (set r) = Row.id r) /\
     ((op = Approve i /\ set = Row.approve (now env)) \/
      (status_of i w = Some approved /\ forall r, Row.status (set r) = expired)) /\
     table w' = update_table i set (table w) /\
     auto_increment w' = auto_increment w) \/
  (exists n e r, table w' = table (inserted n e r env w) /\
     auto_increment w' = auto_increment w + 1).
Proof.
  cbv zeta. destruct op as [name email reason|email|requestId|requestId|n]; cbn [step].
  - rewrite (surjective_pairing (request_resume _ _ _ _ _)). cbn [snd].
    rewrite request_resume_cases.
    destruct (negb (truthy name) || negb (truthy email) || negb (truthy reason));
      [now left|].
    destruct (db_up env); [|now left]. cbv zeta.
    right; right. exists (text_of name), (text_of email), (text_of reason).
    destruct (truthy (ADMIN_EMAIL env)); [destruct (mail_up env)|]; split; reflexivity.
  - rewrite (surjective_pairing (request_status _ _ _)). cbn [snd].
    rewrite request_status_cases.
    destruct (db_up env); [destruct (highest_id _)|]; now left.
  - rewrite (surjective_pairing (admin_approve _ _ _)). cbn [snd].
    destruct (db_up env) eqn:Hdb.
    + rewrite (admin_approve_cases _ _ _ Hdb).
      destruct (resolve requestId w) as [|r0 rest]; [now left|]. cbv zeta.
      right; left. exists requestId, (Row.approve (now env)).
      split; [apply approve_id|]. split; [left; split; reflexivity|].
      destruct (truthy (Some (Row.email r0))); [destruct (mail_up env)|];
        split; reflexivity.
    + rewrite (admin_approve_db_down _ _ _ Hdb). now left.
  - rewrite (surjective_pairing (download_resume _ _ _)). cbn [snd].
    destruct (db_up env) eqn:Hdb.
    + rewrite (download_resume_cases _ _ _ Hdb).
      destruct (resolve requestId w) as [|r rest] eqn:Hrows; [now left|].
      destruct (Row.status r) eqn:Hst; try now left.
      destruct (Row.approved_at r) as [approvedAt|]; [|now left].
      destruct (LINK_EXPIRY_MS <? now env - approvedAt); [|now left].
      right; left. exists requestId, Row.expire_clear.
      split; [apply expire_clear_id|]. split; [|split; reflexivity].
      right. split; [|reflexivity]. unfold status_of. rewrite Hrows.
      cbn [hd_error option_map]. now rewrite Hst.
    + rewrite (download_resume_db_down _ _ _ Hdb). now left.
  - cbn [snd]. unfold run_timer.
    destruct (nth_error (timers w) n) as [t|]; [|now left].
    destruct (fire_at t <=? now env); [|now left].
    rewrite auto_expire_cases. cbn [db_up].
    destruct (db_up env); [|now left].
    unfold resolve. cbn [table].
    destruct (filter (has_id (target t)) (table w)) as [|r rest] eqn:Hrows;
      [now left|].
    destruct (Status_eqb (Row.status r) approved) eqn:Hst; [|now left].
    right; left. exists (target t), Row.expire.
    split; [apply expire_id|]. split; [|split; reflexivity].
    right. split; [|reflexivity]. unfold status_of, resolve. rewrite Hrows.
    cbn [hd_error option_map]. apply Status_eqb_eq in Hst. now rewrite Hst.
Qed.

(** The counter never goes back. *)
Lemma step_counter_mono (env : Env) (op : Op) (w : World) :
  auto_increment w <= auto_increment (snd (step env op w)).
Proof.
  destruct (step_effect env op w)
    as [[_ H]|[[i [set [_ [_ [_ H]]]]]|[n [e [r [_ H]]]]]]; rewrite H; lia.
Qed.

(** The key discipline is kept by every step. *)
Lemma step_well_keyed (env : Env) (op : Op) (w : World) :
  well_keyed w -> well_keyed (snd (step env op w)).
Proof.
  intros [Hnd Hlt]. unfold well_keyed.
  destruct (step_effect env op w)
    as [[Ht Hc]|[[i [set [Hid [_ [Ht Hc]]]]]|[n [e [r [Ht Hc]]]]]]; rewrite Ht, Hc.
  - now split.
  - split.
    + now rewrite update_keeps_ids.
    + intros x Hx. unfold update_table in Hx. apply in_map_iff in Hx.
      destruct Hx as [y [<- Hy]]. specialize (Hlt y Hy).
      destruct (has_id i y); [rewrite Hid|]; exact Hlt.
  - cbn [inserted table]. split.
    + rewrite map_app. cbn [map Row.id].
      apply NoDup_app; [exact Hnd | repeat constructor; intros [] |].
      intros a Ha [<-|[]]. apply in_map_iff in Ha.
      destruct Ha as [x [Hx Hin]]. specialize (Hlt x Hin). lia.
    + intros x Hx. apply in_app_or in Hx. destruct Hx as [Hx|[<-|[]]].
      * specialize (Hlt x Hx). lia.
      * cbn [Row.id]. lia.
Qed.

Lemma run_well_keyed (ops : list (Env * Op)) (w : World) :
  well_keyed w -> well_keyed (snd (run ops w)).
Proof.
  revert w. induction ops as [|[env op] ops IH]; intros w Hw; [exact Hw|].
  cbn [run]. pose proof (step_well_keyed env op w Hw) as H1.
  destruct (step env op w) as [r w1]. cbn [snd] in H1.
  specialize (IH w1 H1). destruct (run ops w1) as [rs w2]. exact IH.
Qed.

Lemma run_counter_mono (ops : list (Env * Op)) (w : World) :
  auto_increment w <= auto_increment (snd (run ops w)).
Proof.
  revert w. induction ops as [|[env op] ops IH]; intros w; [cbn; lia|].
  cbn [run]. pose proof (step_counter_mono env op w) as H1.
  destruct (step env op w) as [r w1]. cbn [snd] in H1.
  specialize (IH w1). destruct (run ops w1) as [rs w2]. cbn [snd] in *. lia.
Qed.

(** An identifier is handed out only by an insert: it is the counter's
    value before the step, and the counter is beyond it afterwards. *)
Lemma step_issues (env : Env) (op : Op) (w : World) (i : Z) :
  fst (step env op w) = Some (SubmittedOk i) ->
  i = auto_increment w /\ auto_increment (snd (step env op w)) = i + 1.
Proof.
  destruct op as [name email reason|email|requestId|requestId|n]; cbn [step].
  - rewrite (surjective_pairing (request_resume _ _ _ _ _)). cbn [fst snd].
    rewrite request_resume_cases.
    destruct (negb (truthy name) || negb (truthy email) || negb (truthy reason));
      [discriminate|].
    destruct (db_up env); [|discriminate]. cbv zeta.
    destruct (truthy (ADMIN_EMAIL env)); [destruct (mail_up env)|];
      cbn [fst snd]; try discriminate;
      intro H; injection H as <-; split; reflexivity.
  - rewrite (surjective_pairing (request_status _ _ _)). cbn [fst].
    rewrite request_status_cases.
    destruct (db_up env); [destruct (highest_id _)|]; discriminate.
  - rewrite (surjective_pairing (admin_approve _ _ _)). cbn [fst].
    destruct (db_up env) eqn:Hdb.
    + rewrite (admin_approve_cases _ _ _ Hdb).
      destruct (resolve requestId w) as [|r0 rest]; [discriminate|]. cbv zeta.
      destruct (truthy (Some (Row.email r0))); [destruct (mail_up env)|];
        discriminate.
    + rewrite (admin_approve_db_down _ _ _ Hdb). discriminate.
  - rewrite (surjective_pairing (download_resume _ _ _)). cbn [fst].
    destruct (db_up env) eqn:Hdb.
    + rewrite (download_resume_cases _ _ _ Hdb).
      destruct (resolve requestId w) as [|r rest]; [discriminate|].
      destruct (Row.status r); try discriminate.
      destruct (Row.approved_at r) as [approvedAt|]; [|discriminate].
      destruct (LINK_EXPIRY_MS <? now env - approvedAt); discriminate.
    + rewrite (download_resume_db_down _ _ _ Hdb). discriminate.
  - discriminate.
Qed.

(** Every identifier returned during a run lies between the counter at its
    start and the counter at its end. *)
Lemma run_issues (ops : list (Env * Op)) (w : World) (i : Z) :
  In (Some (SubmittedOk i)) (fst (run ops w)) ->
  auto_increment w <= i < auto_increment (snd (run ops w)).
Proof.
  revert w. induction ops as [|[env op] ops IH]; intros w; [intros []|].
  cbn [run].
  pose proof (step_issues env op w i) as Hstep.
  pose proof (step_counter_mono env op w) as Hmono.
  destruct (step env op w) as [r w1]. cbn [fst snd] in *.
  specialize (IH w1). pose proof (run_counter_mono ops w1) as Hrun.
  destruct (run ops w1) as [rs w2]. cbn [fst snd] in *.
  intros [->|Hin].
  - destruct (Hstep eq_refl) as [-> H1]. lia.
  - specialize (IH Hin). lia.
Qed.

Lemma any_falsy_iff (name email reason : option string) :
  negb (truthy name) || negb (truthy email) || negb (truthy reason) = true <->
  absent_or_empty name \/ absent_or_empty email \/ absent_or_empty reason.
Proof.
  rewrite !orb_true_iff, !negb_true_iff, !truthy_false_iff. tauto.
Qed.

(** C8, as the code has it. In a world reached by any run from a
    well-keyed table:
    - if one of the three fields is absent or empty, Submit answers
      [ValidationError] and the world is unchanged;
    - otherwise, while the storage works, the table gains exactly one row,
      carrying the given fields, status [pending], a null [approved_at],
      the current time as [created_at] and an identifier that no stored row
      has and that no earlier Submit of the run returned. That identifier
      is returned (with 201) when the admin notification is skipped or
      delivered; when the notification is attempted and rejected, the
      answer is the generic 500 and carries no identifier;
    - otherwise, while the storage is down, the answer is the generic 500
      and the table is as it was. *)
Theorem submit_validates_then_creates
    (history : list (Env * Op)) (w0 : World) (env : Env)
    (name email reason : option string) :
  well_keyed w0 ->
  let w := snd (run history w0) in
  let resp := fst (request_resume name email reason env w) in
  let w' := snd (request_resume name email reason env w) in
  (absent_or_empty name \/ absent_or_empty email \/ absent_or_empty reason ->
     resp = ValidationError /\ w' = w) /\
  (~ (absent_or_empty name \/ absent_or_empty email \/ absent_or_empty reason) ->
   db_up env = true ->
     exists n e r,
       name = Some n /\ email = Some e /\ reason = Some r /\
       table w' =
         table w ++ [Row.make (auto_increment w) n e r pending (now env) None] /\
       (notification_passes env -> resp = SubmittedOk (auto_increment w)) /\
       (~ notification_passes env -> resp = ServerErrorJson) /\
       ~ In (auto_increment w) (map Row.id (table w)) /\
       ~ In (Some (SubmittedOk (auto_increment w))) (fst (run history w0))) /\
  (~ (absent_or_empty name \/ absent_or_empty email \/ absent_or_empty reason) ->
   db_up env = false ->
     resp = ServerErrorJson /\ table w' = table w).
Proof.
  intros Hw0. cbv zeta. rewrite request_resume_cases.
  set (w := snd (run history w0)).
  destruct (negb (truthy name) || negb (truthy email) || negb (truthy reason)) eqn:Hf.
  - split; [intros _; split; reflexivity|].
    split; intro Hno; apply any_falsy_iff in Hf; contradiction.
  - split.
    { intro Hany. apply any_falsy_iff in Hany. congruence. }
    split.
    2: { intros _ Hdb. rewrite Hdb. split; reflexivity. }
    intros _ Hdb. rewrite Hdb. cbv zeta.
    apply orb_false_iff in Hf. destruct Hf as [Hf Hr].
    apply orb_false_iff in Hf. destruct Hf as [Hn He].
    apply negb_false_iff in Hn, He, Hr.
    exists (text_of name), (text_of email), (text_of reason).
    split; [now apply truthy_text|]. split; [now apply truthy_text|].
    split; [now apply truthy_text|].
    split; [|split; [|split; [|split]]].
    + destruct (truthy (ADMIN_EMAIL env)); [destruct (mail_up env)|]; reflexivity.
    + intros [Hskip|Hup].
      * rewrite Hskip. reflexivity.
      * rewrite Hup. now destruct (truthy (ADMIN_EMAIL env)).
    + intro Hfail. unfold notification_passes in Hfail.
      destruct (truthy (ADMIN_EMAIL env)); [|exfalso; apply Hfail; now left].
      destruct (mail_up env); [exfalso; apply Hfail; now right|]. reflexivity.
    + intro Hin. apply in_map_iff in Hin. destruct Hin as [x [Hx Hin]].
      destruct (run_well_keyed history w0 Hw0) as [_ Hlt].
      specialize (Hlt x Hin). fold w in Hlt. lia.
    + intro Hin. apply run_issues in Hin. fold w in Hin. lia.
Qed.

(** Two submissions in a row from the empty table get 1 and 2; a
    submission with an empty reason is turned away; one whose admin mail is
    rejected gets 500. *)
Lemma submit_validates_then_creates_witness :
  let env := mkEnv 1000 true true (Some "admin@x.com") in
  let history := [(env, Submit (Some "Alice") (Some "a@x.com") (Some "review"))] in
  let w := snd (run history empty_world) in
  fst (request_resume (Some "Bob") (Some "b@x.com") (Some "") env w)
    = ValidationError /\
  fst (request_resume (Some "Bob") (Some "b@x.com") (Some "hiring") env w)
    = SubmittedOk 2 /\
  fst (request_resume (Some "Bob") (Some "b@x.com") (Some "hiring")
         (mkEnv 1000 true false (Some "admin@x.com")) w)
    = ServerErrorJson.
Proof.
  intros env history w.
  assert (Hkeys : well_keyed empty_world).
  { split; [constructor | intros r []]. }
  assert (Hvalid : ~ (absent_or_empty (Some "Bob") \/
                      absent_or_empty (Some "b@x.com") \/
                      absent_or_empty (Some "hiring"))).
  { intros [H|[H|H]]; destruct H; discriminate. }
  split; [|split].
  - destruct (submit_validates_then_creates history empty_world env
                (Some "Bob") (Some "b@x.com") (Some "") Hkeys) as [Hbad _].
    apply Hbad. right; right; right; reflexivity.
  - destruct (submit_validates_then_creates history empty_world env
                (Some "Bob") (Some "b@x.com") (Some "hiring") Hkeys)
      as [_ [Hgood _]].
    destruct (Hgood Hvalid eq_refl) as [n [e [r [_ [_ [_ [_ [Hresp _]]]]]]]].
    apply Hresp. right; reflexivity.
  - destruct (submit_validates_then_creates history empty_world
                (mkEnv 1000 true false (Some "admin@x.com"))
                (Some "Bob") (Some "b@x.com") (Some "hiring") Hkeys)
      as [_ [Hgood _]].
    destruct (Hgood Hvalid eq_refl) as [n [e [r [_ [_ [_ [_ [_ [Hfail _]]]]]]]]].
    apply Hfail. intros [H|H]; discriminate.
Defined.

(** C8, as stated, fails: all three fields are given and the row is
    stored, yet with the admin mail rejected Submit answers 500 and returns
    no identifier. *)
Lemma submit_valid_fields_without_identifier :
  let env := mkEnv 1000 true false (Some "admin@x.com") in
  let name := Some "Alice" in
  let email := Some "a@x.com" in
  let reason := Some "review" in
  ~ (absent_or_empty name \/ absent_or_empty email \/ absent_or_empty reason) /\
  table (snd (request_resume name email reason env empty_world)) =
    [Row.make 1 "Alice" "a@x.com" "review" pending 1000 None] /\
  fst (request_resume name email reason env empty_world) = ServerErrorJson /\
  forall insertId,
    fst (request_resume name email reason env empty_world) <> SubmittedOk insertId.
Proof.
  cbv zeta. split; [|split; [|split]].
  - intros [H|[H|H]]; destruct H; discriminate.
  - reflexivity.
  - reflexivity.
  - intro insertId. vm_compute. discriminate.
Qed.

(* ------------------------------------------------------------------ *)
(** ** GetStatus *)

Lemma highest_id_none (rows : list Row.t) : highest_id rows = None -> rows = [].
Proof.
  destruct rows as [|r rest]; [reflexivity|]. simpl.
  destruct (highest_id rest) as [m|]; [|discriminate].
  destruct (Row.id m <? Row.id r); discriminate.
Qed.

(** The row picked is one of the rows and no row has a higher [id]. *)
Lemma highest_id_max (rows : list Row.t) (top : Row.t) :
  highest_id rows = Some top ->
  In top rows /\ forall r, In r rows -> Row.id r <= Row.id top.
Proof.
  revert top. induction rows as [|x rest IH]; intros top; [discriminate|].
  simpl. destruct (highest_id rest) as [m|] eqn:Hm.
  - destruct (IH m eq_refl) as [Hin Hmax].
    destruct (Z.ltb_spec (Row.id m) (Row.id x)) as [Hlt|Hge];
      intro E; injection E as <-.
    + split; [now left|]. intros r [<-|Hr]; [lia|]. specialize (Hmax r Hr). lia.
    + split; [now right|]. intros r [<-|Hr]; [lia|]. now apply Hmax.
  - apply highest_id_none in Hm. subst rest.
    intro E; injection E as <-. split; [now left|].
    intros r [<-|[]]. lia.
Qed.

(** C9. While the storage works, GetStatus changes nothing; when no row
    carries the email it answers 200 with status [none]; when some row does,
    it answers 200 with the status, identifier and approval timestamp of a
    row carrying that email whose identifier no other such row exceeds. *)
Theorem request_status_latest (env : Env) (w : World) (email : string) :
  db_up env = true ->
  let resp := fst (request_status email env w) in
  snd (request_status email env w) = w /\
  code resp = 200 /\
  ((forall r, In r (table w) -> Row.email r <> email) ->
     resp = json 200 StatusNone) /\
  ((exists r, In r (table w) /\ Row.email r = email) ->
     exists top,
       In top (table w) /\ Row.email top = email /\
       (forall r, In r (table w) -> Row.email r = email -> Row.id r <= Row.id top) /\
       resp = json 200 (StatusOf (Row.status top) (Row.id top) (Row.approved_at top))).
Proof.
  intro Hdb. cbv zeta. rewrite request_status_cases, Hdb.
  set (mine := filter (fun r => String.eqb (Row.email r) email) (table w)).
  assert (Hmine : forall r, In r mine <-> In r (table w) /\ Row.email r = email).
  { intro r. unfold mine. rewrite filter_In.
    now rewrite String.eqb_eq. }
  destruct (highest_id mine) as [top|] eqn:Htop; cbn [fst snd].
  - apply highest_id_max in Htop. destruct Htop as [Hin Hmax].
    apply Hmine in Hin. destruct Hin as [Hin Hemail].
    repeat split.
    + intro Hnone. exfalso. exact (Hnone top Hin Hemail).
    + intros _. exists top. repeat split; try assumption.
      intros r Hr He. apply Hmax. apply Hmine. now split.
  - apply highest_id_none in Htop.
    repeat split.
    intros [r [Hr He]]. exfalso.
    assert (In r mine) as Habs by (apply Hmine; now split).
    rewrite Htop in Habs. exact Habs.
Qed.

(** Two requests by the same email: the later one is reported; an email
    never seen gives [none]. *)
Lemma request_status_latest_witness :
  let env := mkEnv 5000 true true None in
  let w := mkWorld [Row.make 1 "Alice" "a@x.com" "review" expired 0 None;
                    Row.make 2 "Bob" "b@x.com" "hiring" pending 10 None;
                    Row.make 3 "Alice" "a@x.com" "again" approved 20 (Some 4000)]
                   4 [] [] [] in
  fst (request_status "nobody@x.com" env w) = json 200 StatusNone /\
  exists top,
    Row.id top = 3 /\
    fst (request_status "a@x.com" env w) =
      json 200 (StatusOf (Row.status top) (Row.id top) (Row.approved_at top)).
Proof.
  intros env w. split.
  - destruct (request_status_latest env w "nobody@x.com" eq_refl) as [_ [_ [Hnone _]]].
    apply Hnone. intros r [<-|[<-|[<-|[]]]]; discriminate.
  - destruct (request_status_latest env w "a@x.com" eq_refl) as [_ [_ [_ Hsome]]].
    destruct Hsome as [top [Hin [He [Hmax Hresp]]]].
    + exists (Row.make 1 "Alice" "a@x.com" "review" expired 0 None).
      split; [now left | reflexivity].
    + exists top. split; [|exact Hresp].
      assert (H3 : 3 <= Row.id top).
      { apply (Hmax (Row.make 3 "Alice" "a@x.com" "again" approved 20 (Some 4000))).
        - right; right; left; reflexivity.
        - reflexivity. }
      destruct Hin as [<-|[<-|[<-|[]]]]; cbn [Row.id] in *; try reflexivity;
        exfalso; revert H3; clear; intro H3; apply H3; reflexivity.
Defined.

(* ------------------------------------------------------------------ *)
(** ** The life of a status *)

Lemma status_of_table (i : Z) (w w' : World) :
  table w' = table w -> status_of i w' = status_of i w.
Proof. unfold status_of, resolve. now intros ->. Qed.

(** One step moves the status of a stored request along the arrows
    [_ -> approved] (by an approval of that request) and
    [approved -> expired], or leaves it. *)
Lemma step_status (env : Env) (op : Op) (w : World) (i : Z) (s : Status) :
  status_of i w = Some s ->
  let s' := status_of i (snd (step env op w)) in
  s' = Some s \/
  (s' = Some approved /\ op = Approve i) \/
  (s' = Some expired /\ s = approved).
Proof.
  intros Hs. cbv zeta.
  destruct (step_effect env op w)
    as [[Ht _]|[[j [set [Hid [Hwhy [Ht _]]]]]|[n [e [r [Ht _]]]]]].
  - left. now rewrite (status_of_table _ _ _ Ht).
  - unfold status_of, resolve in *. rewrite Ht.
    destruct (Z.eq_dec j i) as [->|Hne].
    + rewrite (filter_update_same set Hid).
      destruct (filter (has_id i) (table w)) as [|x rest]; [discriminate|].
      cbn [map hd_error option_map] in *.
      destruct Hwhy as [[-> ->]|[Happ Hexp]].
      * right; left. split; reflexivity.
      * right; right. rewrite Hexp. split; [reflexivity | congruence].
    + left. now rewrite (filter_update_other set Hid).
  - left. unfold status_of, resolve in *. rewrite Ht. cbn [inserted table].
    rewrite filter_app.
    destruct (filter (has_id i) (table w)) as [|x rest]; [discriminate|].
    exact Hs.
Qed.

(** No run brings a request that has left [pending] back to it, and only
    an approval of the request itself takes it out of [expired]. *)
Lemma run_status (ops : list (Env * Op)) (w : World) (i : Z) (s : Status) :
  status_of i w = Some s -> s <> pending ->
  let s' := status_of i (snd (run ops w)) in
  (s' = Some approved \/ s' = Some expired) /\
  (s = expired -> (forall env, ~ In (env, Approve i) ops) -> s' = Some expired).
Proof.
  revert w s. induction ops as [|[env op] ops IH]; intros w s Hs Hnp; cbv zeta.
  - cbn [run snd]. rewrite Hs. split.
    + destruct s; [congruence | now left | now right].
    + now intros ->.
  - cbn [run]. pose proof (step_status env op w i s Hs) as Hstep. cbv zeta in Hstep.
    destruct (step env op w) as [r w1]. cbn [snd] in Hstep.
    pose proof (IH w1) as IH1.
    destruct (run ops w1) as [rs w2]. cbn [snd] in *.
    destruct Hstep as [H1|[[H1 Hop]|[H1 Hwas]]].
    + destruct (IH1 s H1 Hnp) as [Hor Hexp]. split; [exact Hor|].
      intros He Hno. apply (Hexp He). intros env' Hin. apply (Hno env'). now right.
    + destruct (IH1 approved H1) as [Hor _]; [discriminate|]. split; [exact Hor|].
      intros _ Hno. exfalso. apply (Hno env). left. now rewrite Hop.
    + destruct (IH1 expired H1) as [Hor Hexp]; [discriminate|]. split; [exact Hor|].
      intros He. congruence.
Qed.

(** C3, as the code has it. Once a request is [expired], no run of
    operations (Submit, GetStatus, Approve, Download, the delayed check)
    makes it [pending] again or removes it, and as long as the run holds no
    Approve of that request it stays [expired]; an Approve of it, while the
    storage works, makes it [approved] again. *)
Theorem expired_left_only_by_approve
    (ops : list (Env * Op)) (env : Env) (w : World) (requestId : Z) :
  status_of requestId w = Some expired ->
  let after := status_of requestId (snd (run ops w)) in
  (after = Some approved \/ after = Some expired) /\
  after <> Some pending /\
  ((forall e, ~ In (e, Approve requestId) ops) -> after = Some expired) /\
  (db_up env = true ->
   status_of requestId (snd (step env (Approve requestId) w)) = Some approved).
Proof.
  intros Hexp. cbv zeta.
  assert (Hnp : expired <> pending) by discriminate.
  destruct (run_status ops w requestId expired Hexp Hnp) as [Hor Hstay].
  split; [exact Hor|]. split; [|split].
  - destruct Hor as [->| ->]; discriminate.
  - intro Hno. now apply Hstay.
  - intro Hdb. cbn [step].
    rewrite (surjective_pairing (admin_approve _ _ _)). cbn [snd].
    assert (Hex : resolve requestId w <> []).
    { unfold status_of in Hexp. destruct (resolve requestId w); [discriminate|].
      discriminate. }
    unfold status_of, resolve at 1.
    rewrite (admin_approve_table _ _ _ Hdb Hex), (filter_update_same _ (approve_id _)).
    fold (resolve requestId w). destruct (resolve requestId w); [congruence|].
    reflexivity.
Qed.

(** An expired request seen through a submission, a status query, a late
    download and a stray timer stays expired; approving it revives it. *)
Lemma expired_left_only_by_approve_witness :
  let env := mkEnv 900000 true true None in
  let w := mkWorld [Row.make 1 "Alice" "a@x.com" "review" expired 0 None]
                   2 [mkTimer 181000 1] [] [] in
  let ops := [(env, Submit (Some "Bob") (Some "b@x.com") (Some "hiring"));
              (env, GetStatus "a@x.com");
              (env, Download 1);
              (env, TimerFires 0)] in
  status_of 1 (snd (run ops w)) = Some expired /\
  status_of 1 (snd (step env (Approve 1) w)) = Some approved.
Proof.
  intros env w ops.
  destruct (expired_left_only_by_approve ops env w 1 eq_refl) as [_ [_ [Hstay Hrev]]].
  split.
  - apply Hstay. intros e [H|[H|[H|[H|[]]]]]; discriminate.
  - apply Hrev. reflexivity.
Defined.

(** C3, as stated, fails: Approve takes an [expired] request back to
    [approved]. *)
Lemma approve_revives_expired :
  let env := mkEnv 900000 true true None in
  let w := mkWorld [Row.make 1 "Alice" "a@x.com" "review" expired 0 None]
                   2 [] [] [] in
  status_of 1 w = Some expired /\
  status_of 1 (snd (step env (Approve 1) w)) = Some approved /\
  status_of 1 (snd (step env (Approve 1) w)) <> Some expired.
Proof.
  cbv zeta. split; [reflexivity|]. split; [reflexivity|].
  vm_compute. discriminate.
Qed.

(* ------------------------------------------------------------------ *)
(** ** Reachable tables *)

(** No step produces an [approved] row without its timestamp: an approval
    writes both columns, the two expiry paths leave [expired] rows, and an
    insert adds a [pending] one. *)
Lemma step_approved_stamped (env : Env) (op : Op) (w : World) :
  approved_stamped w -> approved_stamped (snd (step env op w)).
Proof.
  intros Hw. unfold approved_stamped.
  destruct (step_effect env op w)
    as [[Ht _]|[[j [set [_ [Hwhy [Ht _]]]]]|[n [e [r [Ht _]]]]]]; rewrite Ht.
  - exact Hw.
  - intros x Hx. unfold update_table in Hx. apply in_map_iff in Hx.
    destruct Hx as [y [<- Hy]]. destruct (has_id j y); [|now apply Hw].
    destruct Hwhy as [[_ ->]|[_ Hexp]].
    + discriminate.
    + rewrite Hexp. discriminate.
  - cbn [inserted table]. intros x Hx. apply in_app_or in Hx.
    destruct Hx as [Hx|[<-|[]]]; [now apply Hw | discriminate].
Qed.

Lemma run_approved_stamped (ops : list (Env * Op)) (w : World) :
  approved_stamped w -> approved_stamped (snd (run ops w)).
Proof.
  revert w. induction ops as [|[env op] ops IH]; intros w Hw; [exact Hw|].
  cbn [run]. pose proof (step_approved_stamped env op w Hw) as H1.
  destruct (step env op w) as [r w1]. cbn [snd] in H1.
  specialize (IH w1 H1). destruct (run ops w1) as [rs w2]. exact IH.
Qed.

(** The scenario of the specification, with a window of three minutes:
    submit, approve at [T = 1000], download one minute later, download four
    minutes later. *)
Example scenario :
  let at_ (t : Z) := mkEnv t true true (Some "admin@x.com") in
  let ops := [(at_ 0, Submit (Some "Alice") (Some "a@x.com") (Some "review"));
              (at_ 1000, Approve 1);
              (at_ 61000, Download 1);
              (at_ 241000, Download 1);
              (at_ 241001, GetStatus "a@x.com")] in
  fst (run ops empty_world) =
    [Some (SubmittedOk 1); Some ApprovedOk; Some ResumeFile; Some ExpiredError;
     Some (json 200 (StatusOf expired 1 None))].
Proof. reflexivity. Qed.

(* ------------------------------------------------------------------ *)
(** ** Failure of the storage *)

Lemma request_resume_db_down
    (name email reason : option string) (env : Env) (w : World) :
  db_up env = false ->
  truthy name = true -> truthy email = true -> truthy reason = true ->
  request_resume name email reason env w =
    (ServerErrorJson, log (Error "request-resume error:" DbFailure) w).
Proof.
  intros Hdb Hn He Hr. now rewrite request_resume_cases, Hn, He, Hr, Hdb.
Qed.

(** While the storage is down every handler that reaches a query answers
    500 with its own fallback body, and the delayed check gives up; each
    writes one error line to the console and nothing else changes: no row,
    no mail, no timer. *)
Theorem storage_down_only_logs
    (env : Env) (w : World) (name email reason : option string)
    (address : string) (requestId : Z) :
  db_up env = false ->
  truthy name = true -> truthy email = true -> truthy reason = true ->
  request_resume name email reason env w =
    (ServerErrorJson, log (Error "request-resume error:" DbFailure) w) /\
  request_status address env w =
    (json 500 (StatusError "Server error"),
     log (Error "request-status error:" DbFailure) w) /\
  admin_approve requestId env w =
    (ServerError, log (Error "admin-approve error:" DbFailure) w) /\
  download_resume requestId env w =
    (ServerError, log (Error "download-resume error:" DbFailure) w) /\
  auto_expire requestId env w = log (Error "auto-expire error:" DbFailure) w.
Proof.
  intros Hdb Hn He Hr. repeat split.
  - now apply request_resume_db_down.
  - now rewrite request_status_cases, Hdb.
  - now apply admin_approve_db_down.
  - now apply download_resume_db_down.
  - now rewrite auto_expire_cases, Hdb.
Qed.

Lemma storage_down_only_logs_witness :
  let env := mkEnv 7000 false true (Some "admin@x.com") in
  let w := mkWorld [Row.make 1 "Alice" "a@x.com" "review" approved 0 (Some 1000)]
                   2 [mkTimer 181000 1] [] [] in
  table (snd (download_resume 1 env w)) = table w /\
  code (fst (admin_approve 1 env w)) = 500.
Proof.
  intros env w.
  destruct (storage_down_only_logs env w (Some "Bob") (Some "b@x.com")
              (Some "hiring") "a@x.com" 1 eq_refl eq_refl eq_refl eq_refl)
    as [_ [_ [Ha [Hd _]]]].
  rewrite Hd, Ha. split; reflexivity.
Defined.

(* ------------------------------------------------------------------ *)
(** ** Who gets the document *)

(** The document is served exactly when the storage works, the identifier
    resolves, [rows[0]] is [approved], carries a timestamp, and at most
    [LINK_EXPIRY_MS] has elapsed since; and the download handler writes to
    the table only when it answers [ExpiredError]. *)
Theorem document_served_iff (env : Env) (w : World) (requestId : Z) :
  (serves_document (fst (download_resume requestId env w)) = true <->
   db_up env = true /\
   exists r rest approvedAt,
     resolve requestId w = r :: rest /\
     Row.status r = approved /\
     Row.approved_at r = Some approvedAt /\
     now env - approvedAt <= LINK_EXPIRY_MS) /\
  (fst (download_resume requestId env w) <> ExpiredError ->
   table (snd (download_resume requestId env w)) = table w).
Proof.
  destruct (db_up env) eqn:Hdb.
  - rewrite (download_resume_cases _ _ _ Hdb).
    destruct (resolve requestId w) as [|r rest].
    { split; [split|reflexivity]; [discriminate|].
      intros [_ [r [rest [t [H _]]]]]. discriminate. }
    destruct (Row.status r) eqn:Hst.
    1,3: split; [split|reflexivity]; [discriminate|];
         intros [_ [r' [rest' [t [H [Hs _]]]]]]; injection H as <- <-; congruence.
    destruct (Row.approved_at r) as [approvedAt|] eqn:Hat.
    2: { split; [split|reflexivity]; [discriminate|].
         intros [_ [r' [rest' [t [H [_ [Ha _]]]]]]]. injection H as <- <-. congruence. }
    destruct (Z.ltb_spec LINK_EXPIRY_MS (now env - approvedAt)) as [Hlate|Hin].
    + split; [split|]; [discriminate| |intro H; now elim H].
      intros [_ [r' [rest' [t [H [_ [Ha Hle]]]]]]]. injection H as <- <-.
      rewrite Hat in Ha. injection Ha as <-. lia.
    + split; [split|reflexivity]; [|reflexivity].
      intros _. split; [reflexivity|]. now exists r, rest, approvedAt.
  - rewrite (download_resume_db_down _ _ _ Hdb). split; [split|reflexivity].
    + discriminate.
    + intros [H _]. discriminate.
Qed.

Lemma document_served_iff_witness :
  let w := mkWorld [Row.make 1 "Alice" "a@x.com" "review" approved 0 (Some 1000)]
                   2 [] [] [] in
  serves_document (fst (download_resume 1 (mkEnv 181000 true true None) w)) = true /\
  ~ serves_document (fst (download_resume 1 (mkEnv 181000 false true None) w)) = true.
Proof.
  intros w. split.
  - apply (proj1 (document_served_iff (mkEnv 181000 true true None) w 1)).
    split; [reflexivity|].
    exists (Row.make 1 "Alice" "a@x.com" "review" approved 0 (Some 1000)), [], 1000.
    repeat split. discriminate.
  - intro H.
    apply (proj1 (document_served_iff (mkEnv 181000 false true None) w 1)) in H.
    destruct H as [H _]. discriminate H.
Defined.

(** Download of an identifier that resolves to no row: 404, and the world
    is as it was. *)
Theorem download_unknown_id (env : Env) (w : World) (requestId : Z) :
  db_up env = true ->
  (forall r, In r (table w) -> Row.id r <> requestId) ->
  download_resume requestId env w = (NotFoundError, w).
Proof.
  intros Hdb Hnone. rewrite (download_resume_cases _ _ _ Hdb).
  destruct (resolve requestId w) as [|r rest] eqn:Hrows; [reflexivity|].
  exfalso. assert (Hin : In r (resolve requestId w)) by (rewrite Hrows; now left).
  unfold resolve in Hin. apply filter_In in Hin. destruct Hin as [Hin Hid].
  apply Z.eqb_eq in Hid. exact (Hnone r Hin Hid).
Qed.

Lemma download_unknown_id_witness :
  let env := mkEnv 7000 true true None in
  let w := mkWorld [Row.make 1 "Alice" "a@x.com" "review" approved 0 (Some 1000)]
                   2 [] [] [] in
  download_resume 5 env w = (NotFoundError, w).
Proof.
  intros env w. apply (download_unknown_id env w 5 eq_refl).
  intros r [<-|[]]. discriminate.
Defined.

(* ------------------------------------------------------------------ *)
(** ** How the operations compose *)

Lemma highest_id_snoc (rows : list Row.t) (x : Row.t) :
  (forall r, In r rows -> Row.id r < Row.id x) ->
  highest_id (rows ++ [x]) = Some x.
Proof.
  induction rows as [|a rows IH]; intro Hlt; [reflexivity|].
  cbn [app highest_id]. rewrite IH by (intros r Hr; apply Hlt; now right).
  replace (Row.id x <? Row.id a) with false; [reflexivity|].
  symmetry. apply Z.ltb_ge. specialize (Hlt a (or_introl eq_refl)). lia.
Qed.

(** Once the insert has run, the row is in the table whether or not the
    notification goes through. *)
Lemma request_resume_table
    (name email reason : option string) (env : Env) (w : World) :
  db_up env = true ->
  truthy name = true -> truthy email = true -> truthy reason = true ->
  table (snd (request_resume name email reason env w)) =
    table w ++ [Row.make (auto_increment w) (text_of name) (text_of email)
                  (text_of reason) pending (now env) None].
Proof.
  intros Hdb Hn He Hr. rewrite request_resume_cases, Hn, He, Hr, Hdb. cbv zeta.
  cbn [negb orb].
  destruct (truthy (ADMIN_EMAIL env)); [destruct (mail_up env)|]; reflexivity.
Qed.

(** Submit, then GetStatus. After a submission that reached the insert, a
    status query for the submitted email reports that very request --
    [pending], the counter's identifier, no approval timestamp -- also when
    the submission itself was answered 500 because the admin mail failed. *)
Theorem status_after_submit
    (env env' : Env) (w : World) (name email reason : option string) :
  well_keyed w ->
  db_up env = true -> db_up env' = true ->
  truthy name = true -> truthy email = true -> truthy reason = true ->
  let w' := snd (request_resume name email reason env w) in
  request_status (text_of email) env' w' =
    (json 200 (StatusOf pending (auto_increment w) None), w').
Proof.
  intros [_ Hlt] Hdb Hdb' Hn He Hr. cbv zeta.
  rewrite request_status_cases, Hdb'.
  rewrite (request_resume_table _ _ _ _ _ Hdb Hn He Hr).
  rewrite filter_app. cbn [filter Row.email]. rewrite String.eqb_refl.
  rewrite highest_id_snoc; [reflexivity|].
  intros r Hr'. apply filter_In in Hr'. destruct Hr' as [Hin _].
  cbn [Row.id]. now apply Hlt.
Qed.

Lemma status_after_submit_witness :
  let env := mkEnv 1000 true false (Some "admin@x.com") in
  let w := mkWorld [Row.make 1 "Alice" "a@x.com" "review" expired 0 None]
                   2 [] [] [] in
  fst (request_resume (Some "Alice") (Some "a@x.com") (Some "again") env w)
    = ServerErrorJson /\
  fst (request_status "a@x.com" env
         (snd (request_resume (Some "Alice") (Some "a@x.com") (Some "again") env w)))
    = json 200 (StatusOf pending 2 None).
Proof.
  intros env w. split; [reflexivity|].
  assert (Hkeys : well_keyed w).
  { split.
    - repeat constructor. intros [].
    - intros r [<-|[]]. reflexivity. }
  pose proof (status_after_submit env env w (Some "Alice") (Some "a@x.com")
                (Some "again") Hkeys eq_refl eq_refl eq_refl eq_refl eq_refl) as H.
  cbv zeta in H. cbn [text_of] in H. rewrite H. reflexivity.
Defined.

(** Approve, then Download. After an approval that found the request, a
    download made at most [LINK_EXPIRY_MS] after the approval's clock
    reading serves the document and changes nothing; a later one answers
    [ExpiredError] and leaves the request [expired]. Neither depends on the
    approval mail having been delivered. *)
Theorem download_after_approve (env1 env2 : Env) (w : World) (requestId : Z) :
  db_up env1 = true -> db_up env2 = true ->
  resolve requestId w <> [] ->
  let w1 := snd (admin_approve requestId env1 w) in
  (now env2 - now env1 <= LINK_EXPIRY_MS ->
     download_resume requestId env2 w1 = (ResumeFile, w1)) /\
  (LINK_EXPIRY_MS < now env2 - now env1 ->
     fst (download_resume requestId env2 w1) = ExpiredError /\
     status_of requestId (snd (download_resume requestId env2 w1)) = Some expired).
Proof.
  intros Hdb1 Hdb2 Hex. cbv zeta.
  set (w1 := snd (admin_approve requestId env1 w)).
  assert (Hres : resolve requestId w1
                 = map (Row.approve (now env1)) (resolve requestId w)).
  { unfold resolve at 1, w1. rewrite (admin_approve_table _ _ _ Hdb1 Hex).
    apply filter_update_same. apply approve_id. }
  destruct (resolve requestId w) as [|r rest] eqn:Hrows; [congruence|].
  cbn [map] in Hres.
  rewrite (download_resume_cases _ _ _ Hdb2), Hres. cbn [Row.status Row.approve Row.approved_at].
  split.
  - intro Hin. replace (LINK_EXPIRY_MS <? now env2 - now env1) with false;
      [reflexivity|]. symmetry. now apply Z.ltb_ge.
  - intro Hlate. apply Z.ltb_lt in Hlate. rewrite Hlate. cbn [fst snd].
    split; [reflexivity|].
    unfold status_of, resolve, with_table. cbn [table].
    rewrite (filter_update_same _ expire_clear_id). fold (resolve requestId w1).
    rewrite Hres. reflexivity.
Qed.

(** The approval mail fails (the admin sees 500), yet the link works for
    three minutes and not a millisecond more. *)
Lemma download_after_approve_witness :
  let env1 := mkEnv 1000 true false None in
  let w := mkWorld [Row.make 1 "Alice" "a@x.com" "review" pending 0 None]
                   2 [] [] [] in
  fst (admin_approve 1 env1 w) = ServerError /\
  fst (download_resume 1 (mkEnv 181000 true true None)
         (snd (admin_approve 1 env1 w))) = ResumeFile /\
  fst (download_resume 1 (mkEnv 181001 true true None)
         (snd (admin_approve 1 env1 w))) = ExpiredError.
Proof.
  intros env1 w. split; [reflexivity|].
  assert (Hex : resolve 1 w <> []) by discriminate.
  destruct (download_after_approve env1 (mkEnv 181000 true true None) w 1
              eq_refl eq_refl Hex) as [Hserve _].
  destruct (download_after_approve env1 (mkEnv 181001 true true None) w 1
              eq_refl eq_refl Hex) as [_ Hlate].
  split.
  - rewrite Hserve; [reflexivity|]. discriminate.
  - apply Hlate. reflexivity.
Defined.



Lemma update_table_twice (i : Z) (f g : Row.t -> Row.t) (rows : list Row.t) :
  (forall r, Row.id (f r) = Row.id r) ->
  update_table i g (update_table i f rows) =
  update_table i (fun r => g (f r)) rows.
Proof.
  intro Hid. unfold update_table. rewrite map_map. apply map_ext. intro r.
  destruct (has_id i r) eqn:E; [|now rewrite E].
  unfold has_id in *. now rewrite Hid, E.
Qed.

(** Approve twice. The second approval overwrites the first: the table
    after both is the table after the second alone, so the window runs from
    the second approval's clock reading. *)
Theorem approve_overwrites (env1 env2 : Env) (w : World) (requestId : Z) :
  db_up env1 = true -> db_up env2 = true ->
  table (snd (admin_approve requestId env2 (snd (admin_approve requestId env1 w)))) =
  table (snd (admin_approve requestId env2 w)).
Proof.
  intros Hdb1 Hdb2.
  destruct (resolve requestId w) as [|r rest] eqn:Hrows.
  - rewrite (admin_approve_cases _ _ _ Hdb1), Hrows. reflexivity.
  - assert (Hex : resolve requestId w <> []) by congruence.
    assert (Hex1 : resolve requestId (snd (admin_approve requestId env1 w)) <> []).
    { unfold resolve. rewrite (admin_approve_table _ _ _ Hdb1 Hex).
      rewrite (filter_update_same _ (approve_id _)). fold (resolve requestId w).
      rewrite Hrows. discriminate. }
    rewrite (admin_approve_table _ _ _ Hdb2 Hex1).
    rewrite (admin_approve_table _ _ _ Hdb1 Hex).
    rewrite (admin_approve_table _ _ _ Hdb2 Hex).
    rewrite (update_table_twice _ _ _ _ (approve_id _)).
    reflexivity.
Qed.

Lemma approve_overwrites_witness :
  let env1 := mkEnv 1000 true true None in
  let env2 := mkEnv 90000 true true None in
  let w := mkWorld [Row.make 1 "Alice" "a@x.com" "review" pending 0 None]
                   2 [] [] [] in
  table (snd (admin_approve 1 env2 (snd (admin_approve 1 env1 w)))) =
    [Row.make 1 "Alice" "a@x.com" "review" approved 0 (Some 90000)].
Proof.
  intros env1 env2 w.
  rewrite (approve_overwrites env1 env2 w 1 eq_refl eq_refl). reflexivity.
Defined.

(* ------------------------------------------------------------------ *)
(** ** The delayed check *)

(** The delayed check looks at the status only. When it runs on an
    [approved] request it expires it whatever the approval timestamp says --
    also one stamped a moment ago by a re-approval -- and from then on a
    download is refused with the generic [ForbiddenError]. *)
Theorem auto_expire_ignores_timestamp
    (env env' : Env) (w : World) (requestId : Z) :
  db_up env = true -> db_up env' = true ->
  status_of requestId w = Some approved ->
  let w' := auto_expire requestId env w in
  status_of requestId w' = Some expired /\
  download_resume requestId env' w' = (ForbiddenError, w').
Proof.
  intros Hdb Hdb' Hst. cbv zeta. rewrite auto_expire_cases, Hdb.
  unfold status_of in Hst.
  destruct (resolve requestId w) as [|r rest] eqn:Hrows; [discriminate|].
  cbn [hd_error option_map] in Hst. injection Hst as Hst.
  rewrite Hst. cbn [Status_eqb].
  assert (Hres : resolve requestId
                   (log (Info "auto-expired (set by setTimeout)." requestId)
                      (with_table (update_table requestId Row.expire) w))
                 = map Row.expire (r :: rest)).
  { unfold resolve, log, with_table. cbn [table].
    rewrite (filter_update_same _ expire_id). fold (resolve requestId w).
    now rewrite Hrows. }
  split.
  - unfold status_of. rewrite Hres. reflexivity.
  - rewrite (download_resume_cases _ _ _ Hdb'), Hres. reflexivity.
Qed.

(** Approved at 1000, approved again at 100000; the timer of the first
    approval fires at 181000 and closes the second window after 81 seconds. *)
Lemma auto_expire_ignores_timestamp_witness :
  let at_ (t : Z) := mkEnv t true true None in
  let w0 := mkWorld [Row.make 1 "Alice" "a@x.com" "review" pending 0 None]
                    2 [] [] [] in
  let w := snd (run [(at_ 1000, Approve 1); (at_ 100000, Approve 1)] w0) in
  map Row.approved_at (table w) = [Some 100000] /\
  map fire_at (timers w) = [181000; 280000] /\
  download_resume 1 (at_ 181001) (auto_expire 1 (at_ 181000) w) =
    (ForbiddenError, auto_expire 1 (at_ 181000) w).
Proof.
  intros at_ w0 w. split; [reflexivity|]. split; [reflexivity|].
  exact (proj2 (auto_expire_ignores_timestamp (at_ 181000) (at_ 181001) w 1
                  eq_refl eq_refl eq_refl)).
Defined.

(** The delayed check leaves alone whatever is not [approved]: a request
    still [pending], one already [expired], an identifier that resolves to
    nothing. The world is then exactly as before, console included. *)
Theorem auto_expire_only_approved (env : Env) (w : World) (requestId : Z) :
  db_up env = true ->
  status_of requestId w <> Some approved ->
  auto_expire requestId env w = w.
Proof.
  intros Hdb Hst. rewrite auto_expire_cases, Hdb. unfold status_of in Hst.
  destruct (resolve requestId w) as [|r rest]; [reflexivity|].
  cbn [hd_error option_map] in Hst.
  destruct (Row.status r); try reflexivity. congruence.
Qed.

Lemma auto_expire_only_approved_witness :
  let env := mkEnv 181000 true true None in
  let w := mkWorld [Row.make 1 "Alice" "a@x.com" "review" pending 0 None]
                   2 [] [] [] in
  auto_expire 1 env w = w /\ auto_expire 9 env w = w.
Proof.
  intros env w. split.
  - apply (auto_expire_only_approved env w 1 eq_refl). discriminate.
  - apply (auto_expire_only_approved env w 9 eq_refl). discriminate.
Defined.

(* ------------------------------------------------------------------ *)
(** ** What no run does *)

Lemma update_keeps_submitted_fields
    (i : Z) (set : Row.t -> Row.t) (rows : list Row.t) :
  (forall r, submitted_fields (set r) = submitted_fields r) ->
  map submitted_fields (update_table i set rows) = map submitted_fields rows.
Proof.
  intro Hset. unfold update_table. rewrite map_map. apply map_ext.
  intro r. now destruct (has_id i r).
Qed.

(** The writes a step can make to the table, statement by statement. *)
Lemma step_writes (env : Env) (op : Op) (w : World) :
  let rows' := table (snd (step env op w)) in
  rows' = table w \/
  (exists i, rows' = update_table i (Row.approve (now env)) (table w)) \/
  (exists i, rows' = update_table i Row.expire (table w)) \/
  (exists i, rows' = update_table i Row.expire_clear (table w)) \/
  (exists n e r, rows' = table (inserted n e r env w)).
Proof.
  cbv zeta. destruct op as [name email reason|email|requestId|requestId|n]; cbn [step].
  - rewrite (surjective_pairing (request_resume _ _ _ _ _)). cbn [snd].
    rewrite request_resume_cases.
    destruct (negb (truthy name) || negb (truthy email) || negb (truthy reason));
      [now left|].
    destruct (db_up env); [|now left]. cbv zeta.
    do 4 right. exists (text_of name), (text_of email), (text_of reason).
    destruct (truthy (ADMIN_EMAIL env)); [destruct (mail_up env)|]; reflexivity.
  - rewrite (surjective_pairing (request_status _ _ _)). cbn [snd].
    rewrite request_status_cases.
    destruct (db_up env); [destruct (highest_id _)|]; now left.
  - rewrite (surjective_pairing (admin_approve _ _ _)). cbn [snd].
    destruct (db_up env) eqn:Hdb.
    + destruct (resolve requestId w) as [|r0 rest] eqn:Hrows.
      * rewrite (admin_approve_cases _ _ _ Hdb), Hrows. now left.
      * right; left. exists requestId. apply (admin_approve_table _ _ _ Hdb).
        congruence.
    + rewrite (admin_approve_db_down _ _ _ Hdb). now left.
  - rewrite (surjective_pairing (download_resume _ _ _)). cbn [snd].
    destruct (db_up env) eqn:Hdb.
    + rewrite (download_resume_cases _ _ _ Hdb).
      destruct (resolve requestId w) as [|r rest]; [now left|].
      destruct (Row.status r); try now left.
      destruct (Row.approved_at r) as [approvedAt|]; [|now left].
      destruct (LINK_EXPIRY_MS <? now env - approvedAt); [|now left].
      do 3 right. left. now exists requestId.
    + rewrite (download_resume_db_down _ _ _ Hdb). now left.
  - cbn [snd]. unfold run_timer.
    destruct (nth_error (timers w) n) as [t|]; [|now left].
    destruct (fire_at t <=? now env); [|now left].
    rewrite auto_expire_cases. cbn [db_up].
    destruct (db_up env); [|now left].
    unfold resolve. cbn [table].
    destruct (filter (has_id (target t)) (table w)) as [|r rest]; [now left|].
    destruct (Status_eqb (Row.status r) approved); [|now left].
    do 2 right. left. now exists (target t).
Qed.

(** One step keeps every stored row's submitted columns, in place, and adds
    at most one row, at the end. *)
Lemma step_submitted_fields (env : Env) (op : Op) (w : World) :
  exists added,
    (List.length added <= 1)%nat /\
    map submitted_fields (table (snd (step env op w))) =
    map submitted_fields (table w) ++ added.
Proof.
  destruct (step_writes env op w) as [Ht|[[i Ht]|[[i Ht]|[[i Ht]|[n [e [r Ht]]]]]]];
    rewrite Ht.
  - exists []. split; [cbn; lia | now rewrite app_nil_r].
  - exists []. split; [cbn; lia|]. rewrite app_nil_r.
    now apply update_keeps_submitted_fields.
  - exists []. split; [cbn; lia|]. rewrite app_nil_r.
    now apply update_keeps_submitted_fields.
  - exists []. split; [cbn; lia|]. rewrite app_nil_r.
    now apply update_keeps_submitted_fields.
  - cbn [inserted table]. rewrite map_app. eexists. split; [|reflexivity].
    cbn. lia.
Qed.

(** No run deletes, reorders or rewrites what was submitted: the
    identifier, name, email, reason and creation time of every stored row
    stay in place, and the table grows by at most one row per operation. *)
Theorem run_keeps_submitted_fields (ops : list (Env * Op)) (w : World) :
  exists added,
    (List.length added <= List.length ops)%nat /\
    map submitted_fields (table (snd (run ops w))) =
    map submitted_fields (table w) ++ added.
Proof.
  revert w. induction ops as [|[env op] ops IH]; intro w.
  - exists []. split; [cbn; lia | cbn; now rewrite app_nil_r].
  - cbn [run]. destruct (step_submitted_fields env op w) as [a1 [Hl1 H1]].
    destruct (step env op w) as [r w1]. cbn [snd] in H1.
    destruct (IH w1) as [a2 [Hl2 H2]].
    destruct (run ops w1) as [rs w2]. cbn [snd] in *.
    exists (a1 ++ a2). split.
    + rewrite List.length_app. cbn [List.length]. lia.
    + now rewrite H2, H1, app_assoc.
Qed.

(** In a table where every [approved] row is stamped -- the empty one, for
    a start -- no run leads to a download answered "Approval timestamp
    missing.": the handler's guard on [approved_at] is never the one that
    refuses. *)
Theorem timestamp_guard_never_fires
    (ops : list (Env * Op)) (env : Env) (w : World) (requestId : Z) :
  approved_stamped w ->
  fst (download_resume requestId env (snd (run ops w))) <> TimestampMissing.
Proof.
  intro Hw. pose proof (run_approved_stamped ops w Hw) as Hrun.
  set (w' := snd (run ops w)) in *.
  destruct (db_up env) eqn:Hdb.
  - rewrite (download_resume_cases _ _ _ Hdb).
    destruct (resolve requestId w') as [|r rest] eqn:Hrows; [discriminate|].
    assert (Hin : In r (table w')).
    { assert (H : In r (resolve requestId w')) by (rewrite Hrows; now left).
      unfold resolve in H. now apply filter_In in H. }
    destruct (Row.status r) eqn:Hst; try discriminate.
    destruct (Row.approved_at r) as [approvedAt|] eqn:Hat.
    + destruct (LINK_EXPIRY_MS <? now env - approvedAt); discriminate.
    + exfalso. exact (Hrun r Hin Hst Hat).
  - rewrite (download_resume_db_down _ _ _ Hdb). discriminate.
Qed.

Lemma timestamp_guard_never_fires_witness :
  let at_ (t : Z) := mkEnv t true true None in
  let ops := [(at_ 0, Submit (Some "Alice") (Some "a@x.com") (Some "review"));
              (at_ 1000, Approve 1);
              (at_ 181000, TimerFires 0);
              (at_ 200000, Approve 1)] in
  fst (download_resume 1 (at_ 200001) (snd (run ops empty_world)))
    <> TimestampMissing.
Proof.
  intros at_ ops.
  apply (timestamp_guard_never_fires ops (at_ 200001) empty_world 1).
  intros r [].
Defined.

(** A request that is [pending] stays so through any run that holds no
    Approve of it -- no operation rejects or expires it, the delayed checks
    of other approvals included -- and a download of it at the end of such
    a run serves nothing. *)
Theorem pending_until_approved
    (ops : list (Env * Op)) (env : Env) (w : World) (requestId : Z) :
  status_of requestId w = Some pending ->
  (forall e, ~ In (e, Approve requestId) ops) ->
  status_of requestId (snd (run ops w)) = Some pending /\
  serves_document (fst (download_resume requestId env (snd (run ops w)))) = false.
Proof.
  intros Hst Hno.
  assert (Hend : status_of requestId (snd (run ops w)) = Some pending).
  { revert w Hst. induction ops as [|[e op] ops IH]; intros w Hst; [exact Hst|].
    cbn [run]. pose proof (step_status e op w requestId pending Hst) as Hstep.
    cbv zeta in Hstep. destruct (step e op w) as [r w1]. cbn [snd] in Hstep.
    assert (H1 : status_of requestId w1 = Some pending).
    { destruct Hstep as [H|[[_ Hop]|[_ Habs]]]; [exact H | | discriminate].
      exfalso. apply (Hno e). left. now rewrite Hop. }
    assert (Hno' : forall e', ~ In (e', Approve requestId) ops).
    { intros e' Hin. apply (Hno e'). now right. }
    specialize (IH Hno' w1 H1). destruct (run ops w1) as [rs w2]. exact IH. }
  split; [exact Hend|].
  set (w' := snd (run ops w)) in *. unfold status_of in Hend.
  destruct (db_up env) eqn:Hdb.
  - rewrite (download_resume_cases _ _ _ Hdb).
    destruct (resolve requestId w') as [|r rest]; [discriminate|].
    cbn [hd_error option_map] in Hend. injection Hend as ->. reflexivity.
  - now rewrite (download_resume_db_down _ _ _ Hdb).
Qed.

Lemma pending_until_approved_witness :
  let at_ (t : Z) := mkEnv t true true None in
  let w := mkWorld [Row.make 1 "Alice" "a@x.com" "review" pending 0 None;
                    Row.make 2 "Bob" "b@x.com" "hiring" pending 5 None]
                   3 [] [] [] in
  let ops := [(at_ 1000, Approve 2); (at_ 2000, Download 1);
              (at_ 181000, TimerFires 0); (at_ 900000, Download 2)] in
  status_of 1 (snd (run ops w)) = Some pending.
Proof.
  intros at_ w ops.
  refine (proj1 (pending_until_approved ops (at_ 900001) w 1 eq_refl _)).
  intros e [H|[H|[H|[H|[]]]]]; discriminate.
Defined.

Lemma has_id_make (i : Z) (n e r : string) (s : Status) (c : Z) (a : option Z) :
  has_id i (Row.make i n e r s c a) = true.
Proof. unfold has_id. cbn [Row.id]. apply Z.eqb_refl. Qed.

(** The link mailed to the administrator leads to the request just
    submitted. When Submit answers 201 with an identifier, that identifier
    is the one put in the admin mail (if the mail is configured), and an
    Approve of it finds the request and leaves it [approved]. *)
Theorem approve_link_round_trip
    (env env' : Env) (w : World) (name email reason : option string) (insertId : Z) :
  fst (request_resume name email reason env w) = SubmittedOk insertId ->
  db_up env' = true ->
  let w' := snd (request_resume name email reason env w) in
  outbox w' =
    outbox w ++
    (if truthy (ADMIN_EMAIL env)
     then [AdminNotice (text_of (ADMIN_EMAIL env)) (text_of name) (text_of email)
             (text_of reason) insertId]
     else []) /\
  fst (admin_approve insertId env' w') <> NotFoundError /\
  status_of insertId (snd (admin_approve insertId env' w')) = Some approved.
Proof.
  intros Hresp Hdb'. cbv zeta.
  assert (Hfacts :
    insertId = auto_increment w /\
    outbox (snd (request_resume name email reason env w)) =
      outbox w ++
      (if truthy (ADMIN_EMAIL env)
       then [AdminNotice (text_of (ADMIN_EMAIL env)) (text_of name) (text_of email)
               (text_of reason) insertId]
       else []) /\
    table (snd (request_resume name email reason env w)) =
      table w ++ [Row.make insertId (text_of name) (text_of email)
                    (text_of reason) pending (now env) None]).
  { revert Hresp. rewrite request_resume_cases.
    destruct (negb (truthy name) || negb (truthy email) || negb (truthy reason));
      [discriminate|].
    destruct (db_up env); [|discriminate]. cbv zeta.
    destruct (truthy (ADMIN_EMAIL env)); [destruct (mail_up env)|];
      cbn [fst snd]; try discriminate; intro H; injection H as <-.
    - repeat split.
    - repeat split. cbn [log outbox inserted]. now rewrite app_nil_r. }
  destruct Hfacts as [Hid [Hout Htab]]. split; [exact Hout|].
  set (w' := snd (request_resume name email reason env w)) in *.
  assert (Hex : exists r rest, resolve insertId w' = r :: rest).
  { unfold resolve. rewrite Htab, filter_app. cbn [filter].
    rewrite has_id_make.
    destruct (filter (has_id insertId) (table w)) as [|x xs].
    - now exists (Row.make insertId (text_of name) (text_of email)
                    (text_of reason) pending (now env) None), [].
    - cbn [app]. now exists x, (xs ++ [Row.make insertId (text_of name)
                    (text_of email) (text_of reason) pending (now env) None]). }
  destruct Hex as [r [rest Hrows]].
  assert (Hne : resolve insertId w' <> []) by congruence.
  split.
  - rewrite (admin_approve_cases _ _ _ Hdb'), Hrows. cbv zeta.
    destruct (truthy (Some (Row.email r))); [destruct (mail_up env')|];
      cbn [fst]; discriminate.
  - unfold status_of, resolve at 1.
    rewrite (admin_approve_table _ _ _ Hdb' Hne).
    rewrite (filter_update_same _ (approve_id _)). fold (resolve insertId w').
    now rewrite Hrows.
Qed.

Lemma approve_link_round_trip_witness :
  let env := mkEnv 0 true true (Some "admin@x.com") in
  let w' := snd (request_resume (Some "Alice") (Some "a@x.com") (Some "review")
                   env empty_world) in
  outbox w' = [AdminNotice "admin@x.com" "Alice" "a@x.com" "review" 1] /\
  status_of 1 (snd (admin_approve 1 (mkEnv 1000 true true None) w')) = Some approved.
Proof.
  intros env w'.
  destruct (approve_link_round_trip env (mkEnv 1000 true true None) empty_world
              (Some "Alice") (Some "a@x.com") (Some "review") 1 eq_refl eq_refl)
    as [Hout [_ Hst]].
  split; [exact Hout | exact Hst].
Defined.

(** Approve schedules the delayed check and mails the requester exactly
    when it answers its confirmation: then one timer is added, due
    [LINK_EXPIRY_MS] after the approval, and one mail goes to the address
    stored with the request (none if that address is empty). With any other
    answer -- 404, 500 -- no timer is added and no mail is sent. *)
Theorem approve_confirmation_effects (env : Env) (w : World) (requestId : Z) :
  let resp := fst (admin_approve requestId env w) in
  let w' := snd (admin_approve requestId env w) in
  (resp = ApprovedOk ->
     timers w' = timers w ++ [mkTimer (now env + LINK_EXPIRY_MS) requestId] /\
     exists r0 rest,
       resolve requestId w = r0 :: rest /\
       outbox w' =
         outbox w ++
         (if truthy (Some (Row.email r0))
          then [UserApproved (Row.email r0) requestId 3] else [])) /\
  (resp <> ApprovedOk -> timers w' = timers w /\ outbox w' = outbox w).
Proof.
  cbv zeta. destruct (db_up env) eqn:Hdb.
  - rewrite (admin_approve_cases _ _ _ Hdb).
    destruct (resolve requestId w) as [|r0 rest].
    { split; [discriminate | intros _; split; reflexivity]. }
    cbv zeta. destruct (truthy (Some (Row.email r0))) eqn:Hto.
    + destruct (mail_up env); cbn [fst snd].
      * split; [|intro H; now elim H]. intros _. split; [reflexivity|].
        exists r0, rest. rewrite Hto. split; reflexivity.
      * split; [discriminate | intros _; split; reflexivity].
    + cbn [fst snd]. split; [|intro H; now elim H]. intros _. split; [reflexivity|].
      exists r0, rest. rewrite Hto. cbn [outbox]. split; [reflexivity|].
      now rewrite app_nil_r.
  - rewrite (admin_approve_db_down _ _ _ Hdb).
    split; [discriminate | intros _; split; reflexivity].
Qed.

Lemma approve_confirmation_effects_witness :
  let env := mkEnv 1000 true true None in
  let w := mkWorld [Row.make 1 "Alice" "a@x.com" "review" pending 0 None]
                   2 [] [] [] in
  timers (snd (admin_approve 1 env w)) = [mkTimer 181000 1] /\
  timers (snd (admin_approve 4 env w)) = [].
Proof.
  intros env w.
  destruct (approve_confirmation_effects env w 1) as [Hyes _].
  destruct (approve_confirmation_effects env w 4) as [_ Hno].
  split.
  - exact (proj1 (Hyes eq_refl)).
  - refine (proj1 (Hno _)). discriminate.
Defined.

Lemma filter_absent (i : Z) (rows : list Row.t) :
  ~ In i (map Row.id rows) -> filter (has_id i) rows = [].
Proof.
  induction rows as [|x rows IH]; intro Hnot; [reflexivity|].
  cbn [filter]. unfold has_id at 1.
  destruct (Z.eqb_spec (Row.id x) i) as [Heq|_].
  - exfalso. apply Hnot. now left.
  - apply IH. intro Hin. apply Hnot. now right.
Qed.

(** Under unique identifiers a stored row is all its identifier resolves
    to. *)
Lemma resolve_unique (rows : list Row.t) (r : Row.t) :
  NoDup (map Row.id rows) -> In r rows ->
  filter (has_id (Row.id r)) rows = [r].
Proof.
  induction rows as [|x rows IH]; intros Hnd Hin; [destruct Hin|].
  cbn [map] in Hnd. inversion Hnd as [|? ? Hnotin Hnd']; subst.
  cbn [filter]. destruct Hin as [->|Hin].
  - unfold has_id at 1. rewrite Z.eqb_refl. f_equal. now apply filter_absent.
  - unfold has_id at 1. destruct (Z.eqb_spec (Row.id x) (Row.id r)) as [Heq|_].
    + exfalso. apply Hnotin. rewrite Heq. now apply in_map.
    + now apply IH.
Qed.

(** GetStatus and Download agree. Under unique identifiers, when a status
    query reports a request as [approved] with a timestamp, a download of
    the reported identifier made at most [LINK_EXPIRY_MS] after that
    timestamp serves the document. *)
Theorem reported_approved_downloads
    (env1 env2 : Env) (w : World) (address : string) (requestId approvedAt : Z) :
  NoDup (map Row.id (table w)) ->
  db_up env2 = true ->
  fst (request_status address env1 w) =
    json 200 (StatusOf approved requestId (Some approvedAt)) ->
  now env2 - approvedAt <= LINK_EXPIRY_MS ->
  download_resume requestId env2 w = (ResumeFile, w).
Proof.
  intros Hnd Hdb2 Hrep Hin. rewrite request_status_cases in Hrep.
  destruct (db_up env1); [|discriminate].
  destruct (highest_id _) as [top|] eqn:Htop; [|discriminate].
  cbn [fst] in Hrep. injection Hrep as Hst Hid Hat.
  apply highest_id_max in Htop. destruct Htop as [Hmem _].
  apply filter_In in Hmem. destruct Hmem as [Hmem _].
  rewrite (download_resume_cases _ _ _ Hdb2). unfold resolve.
  rewrite <- Hid, (resolve_unique _ _ Hnd Hmem), Hst, Hat.
  replace (LINK_EXPIRY_MS <? now env2 - approvedAt) with false; [reflexivity|].
  symmetry. now apply Z.ltb_ge.
Qed.

Lemma reported_approved_downloads_witness :
  let env := mkEnv 5000 true true None in
  let w := mkWorld [Row.make 1 "Alice" "a@x.com" "review" expired 0 None;
                    Row.make 3 "Alice" "a@x.com" "again" approved 20 (Some 4000)]
                   4 [] [] [] in
  download_resume 3 env w = (ResumeFile, w).
Proof.
  intros env w.
  refine (reported_approved_downloads env env w "a@x.com" 3 4000 _ eq_refl eq_refl _).
  - repeat constructor.
    + intros [H|[]]. discriminate.
    + intros [].
  - discriminate.
Defined.

(** Acting on one request never alters another: an approval, a download
    and the delayed check of identifier [i] leave the rows of every other
    identifier as they were, whatever the storage and the mail do. *)
Theorem other_requests_untouched (env : Env) (w : World) (i j : Z) :
  i <> j ->
  resolve j (snd (admin_approve i env w)) = resolve j w /\
  resolve j (snd (download_resume i env w)) = resolve j w /\
  resolve j (auto_expire i env w) = resolve j w.
Proof.
  intro Hij. unfold resolve at 1 3 5. split; [|split].
  - destruct (db_up env) eqn:Hdb.
    + destruct (resolve i w) as [|r rest] eqn:Hrows.
      * now rewrite (admin_approve_cases _ _ _ Hdb), Hrows.
      * rewrite (admin_approve_table _ _ _ Hdb) by congruence.
        now apply filter_update_other; [apply approve_id|].
    + now rewrite (admin_approve_db_down _ _ _ Hdb).
  - destruct (db_up env) eqn:Hdb.
    + rewrite (download_resume_cases _ _ _ Hdb).
      destruct (resolve i w) as [|r rest]; [reflexivity|].
      destruct (Row.status r); try reflexivity.
      destruct (Row.approved_at r) as [approvedAt|]; [|reflexivity].
      destruct (LINK_EXPIRY_MS <? now env - approvedAt); [|reflexivity].
      cbn [snd with_table table].
      now apply filter_update_other; [apply expire_clear_id|].
    + now rewrite (download_resume_db_down _ _ _ Hdb).
  - rewrite auto_expire_cases. destruct (db_up env); [|reflexivity].
    destruct (resolve i w) as [|r rest]; [reflexivity|].
    destruct (Status_eqb (Row.status r) approved); [|reflexivity].
    cbn [log with_table table].
    now apply filter_update_other; [apply expire_id|].
Qed.

Lemma other_requests_untouched_witness :
  let env := mkEnv 900000 true true None in
  let w := mkWorld [Row.make 1 "Alice" "a@x.com" "review" approved 0 (Some 1000);
                    Row.make 2 "Bob" "b@x.com" "hiring" approved 5 (Some 2000)]
                   3 [] [] [] in
  resolve 2 (snd (download_resume 1 env w)) =
    [Row.make 2 "Bob" "b@x.com" "hiring" approved 5 (Some 2000)].
Proof.
  intros env w.
  assert (Hne : 1 <> 2) by discriminate.
  destruct (other_requests_untouched env w 1 2 Hne) as [_ [Hd _]].
  rewrite Hd. reflexivity.
Defined.

Lemma request_resume_counter
    (name email reason : option string) (env : Env) (w : World) :
  db_up env = true ->
  truthy name = true -> truthy email = true -> truthy reason = true ->
  auto_increment (snd (request_resume name email reason env w)) =
    auto_increment w + 1.
Proof.
  intros Hdb Hn He Hr. rewrite request_resume_cases, Hn, He, Hr, Hdb. cbv zeta.
  cbn [negb orb].
  destruct (truthy (ADMIN_EMAIL env)); [destruct (mail_up env)|]; reflexivity.
Qed.

(** Submissions are never merged: the same name, email and reason
    submitted twice give two rows, both [pending], one after the other at
    the end of the table, under consecutive identifiers. *)
Theorem resubmission_not_merged
    (env1 env2 : Env) (w : World) (name email reason : option string) :
  db_up env1 = true -> db_up env2 = true ->
  truthy name = true -> truthy email = true -> truthy reason = true ->
  table (snd (request_resume name email reason env2
                (snd (request_resume name email reason env1 w)))) =
    table w ++
    [Row.make (auto_increment w) (text_of name) (text_of email) (text_of reason)
       pending (now env1) None;
     Row.make (auto_increment w + 1) (text_of name) (text_of email) (text_of reason)
       pending (now env2) None].
Proof.
  intros Hdb1 Hdb2 Hn He Hr.
  rewrite (request_resume_table _ _ _ _ _ Hdb2 Hn He Hr).
  rewrite (request_resume_table _ _ _ _ _ Hdb1 Hn He Hr).
  rewrite (request_resume_counter _ _ _ _ _ Hdb1 Hn He Hr).
  now rewrite <- app_assoc.
Qed.

Lemma resubmission_not_merged_witness :
  let env := mkEnv 1000 true true None in
  map Row.id
    (table (snd (request_resume (Some "Alice") (Some "a@x.com") (Some "review") env
              (snd (request_resume (Some "Alice") (Some "a@x.com") (Some "review")
                      env empty_world))))) = [1; 2].
Proof.
  intros env.
  rewrite (resubmission_not_merged env env empty_world (Some "Alice")
             (Some "a@x.com") (Some "review") eq_refl eq_refl eq_refl eq_refl eq_refl).
  reflexivity.
Defined.
